(** * rp (repo prompt): a shallow embedding of [rp.py] and its properties

    The development follows the one procedure of the program, [main]:
    input resolution (list file, prompt templates, inline prompts, default
    template, files), construction of the [ElementTree] document, its
    serialization with [ET.tostring], and the final reporting.

    Python values are modelled as the interpreter has them: a [str] is a
    sequence of Unicode code points, the element tree is a store of mutable
    objects addressed by identity, and an early [return 1] of [main] is an
    explicit control-flow result. *)

From Stdlib Require Import NArith ZArith String Ascii Lia DecimalN.
From stdpp Require Import base list list_numbers option.

Local Open Scope N_scope.

(** ** Python strings *)

Module Py.

(** A Python [str]: the list of its code points. *)
Abbreviation str := (list N).

(** A literal of the source, written with its ASCII text. *)
Fixpoint u (s : string) : str :=
  match s with
  | EmptyString => []
  | String a s' => N_of_ascii a :: u s'
  end.
Arguments u s%_string : simpl never.

(** Truth value of a [str] in a condition: [if line:], [if text]. *)
Definition truthy (s : str) : bool :=
  match s with [] => false | _ :: _ => true end.

(** Truth value of an optional [str] ([None] or a string):
    [if args.list:], [if args.output:], [if elem.text]. *)
Definition truthy_opt (o : option str) : bool :=
  match o with None => false | Some s => truthy s end.

(** [c in text] for a one-character [c]. *)
Definition contains (c : N) (text : str) : bool := existsb (N.eqb c) text.

(** [text.replace(c, new)] for a one-character [c]. *)
Definition replace (c : N) (new : str) (text : str) : str :=
  flat_map (fun x => if x =? c then new else [x]) text.

(** [str.isspace] on one code point (the interpreter's whitespace table). *)
Definition isspace (c : N) : bool :=
  ((9 <=? c) && (c <=? 13)) || ((28 <=? c) && (c <=? 32))
  || (c =? 133) || (c =? 160) || (c =? 5760)
  || ((8192 <=? c) && (c <=? 8202))
  || (c =? 8232) || (c =? 8233) || (c =? 8239) || (c =? 8287) || (c =? 12288).

(** The line boundaries of [str.splitlines]. *)
Definition is_linebreak (c : N) : bool :=
  ((10 <=? c) && (c <=? 13)) || ((28 <=? c) && (c <=? 30))
  || (c =? 133) || (c =? 8232) || (c =? 8233).

(** [str.splitlines()]: [cur] is the current line, newest character first.
    A carriage return followed by a line feed is one boundary; a last line
    without terminator is kept unless it is empty. *)
Fixpoint splitlines_from (cur : str) (s : str) : list str :=
  match s with
  | [] => match cur with [] => [] | _ => [rev cur] end
  | c :: s' =>
      if is_linebreak c then
        rev cur ::
          match s' with
          | c' :: s'' =>
              if (c =? 13) && (c' =? 10)
              then splitlines_from [] s''
              else splitlines_from [] s'
          | [] => splitlines_from [] s'
          end
      else splitlines_from (c :: cur) s'
  end.

Definition splitlines (s : str) : list str := splitlines_from [] s.

(** [str.lstrip()], [str.rstrip()] and [str.strip()] without argument. *)
Fixpoint lstrip (s : str) : str :=
  match s with
  | [] => []
  | c :: s' => if isspace c then lstrip s' else s
  end.

Definition rstrip (s : str) : str := rev (lstrip (rev s)).

Definition strip (s : str) : str := rstrip (lstrip s).

(** [str.split()] without argument: the words between runs of whitespace.
    [cur] is the current word, newest character first. *)
Fixpoint split_from (cur : str) (s : str) : list str :=
  match s with
  | [] => match cur with [] => [] | _ => [rev cur] end
  | c :: s' =>
      if isspace c then
        match cur with
        | [] => split_from [] s'
        | _ => rev cur :: split_from [] s'
        end
      else split_from (c :: cur) s'
  end.

Definition split (s : str) : list str := split_from [] s.

(** [str(n)] for a non-negative [int]: its decimal digits. *)
Fixpoint digits (d : Decimal.uint) : str :=
  match d with
  | Decimal.Nil => []
  | Decimal.D0 d' => 48 :: digits d'
  | Decimal.D1 d' => 49 :: digits d'
  | Decimal.D2 d' => 50 :: digits d'
  | Decimal.D3 d' => 51 :: digits d'
  | Decimal.D4 d' => 52 :: digits d'
  | Decimal.D5 d' => 53 :: digits d'
  | Decimal.D6 d' => 54 :: digits d'
  | Decimal.D7 d' => 55 :: digits d'
  | Decimal.D8 d' => 56 :: digits d'
  | Decimal.D9 d' => 57 :: digits d'
  end.

Definition str_of_int (n : N) : str := digits (N.to_uint n).

(** [os.path.basename] of [posixpath]: what follows the last slash
    ([i = p.rfind('/') + 1; return p[i:]]). *)
Fixpoint basename (p : str) : str :=
  match p with
  | [] => []
  | c :: p' =>
      if contains 47 p' then basename p'
      else if c =? 47 then p' else p
  end.

End Py.

(** ** The element tree of [xml.etree.ElementTree]

    Elements are mutable objects: [SubElement] links a new element under its
    parent and hands the same object back to the caller, who then sets its
    attribute and text. The store keeps every element under its identity and
    an element's children are identities, so a later mutation is seen through
    the parent. *)

Module ET.
Import Py.

Record Element := mkElement {
  tag : str;
  attrib : list (str * str);
  text : option str;
  children : list nat;
  tail : option str
}.

Abbreviation store := (list Element).

(** Computations that allocate and mutate elements. *)
Definition M (A : Type) : Type := store -> A * store.

Definition ret {A} (a : A) : M A := fun st => (a, st).

Definition bind {A B} (m : M A) (k : A -> M B) : M B :=
  fun st => let '(a, st') := m st in k a st'.

Notation "'let*' x ':=' m 'in' k" := (bind m (fun x => k))
  (at level 10, x name, m at level 100, k at level 200).
Notation "m ';;' k" := (bind m (fun _ => k))
  (at level 100, k at level 200, right associativity).

(** [for x in xs: body(x)] *)
Fixpoint for_each {A} (xs : list A) (body : A -> M unit) : M unit :=
  match xs with
  | [] => ret tt
  | x :: xs' => body x ;; for_each xs' body
  end.

(** [dict[k] = v] on an insertion-ordered dictionary. *)
Fixpoint dict_set (k v : str) (d : list (str * str)) : list (str * str) :=
  match d with
  | [] => [(k, v)]
  | (k', v') :: d' =>
      if decide (k = k') then (k, v) :: d' else (k', v') :: dict_set k v d'
  end.

(** [ET.Element(tag)]: a fresh element without attributes, text or children. *)
Definition Element_ (tag : str) : M nat :=
  fun st => (length st, st ++ [mkElement tag [] None [] None]).

(** [parent.append(element)] *)
Definition append (parent element : nat) : M unit :=
  fun st =>
    (tt, alter (fun e => mkElement (tag e) (attrib e) (text e)
                           (children e ++ [element]) (tail e)) parent st).

(** [ET.SubElement(parent, tag)] *)
Definition SubElement (parent : nat) (tag : str) : M nat :=
  let* element := Element_ tag in
  append parent element ;;
  ret element.

(** [element.set(key, value)] *)
Definition set (element : nat) (key value : str) : M unit :=
  fun st =>
    (tt, alter (fun e => mkElement (tag e) (dict_set key value (attrib e))
                           (text e) (children e) (tail e)) element st).

(** [element.text = value] *)
Definition set_text (element : nat) (value : str) : M unit :=
  fun st =>
    (tt, alter (fun e => mkElement (tag e) (attrib e) (Some value)
                           (children e) (tail e)) element st).

(** *** Serialization *)

Definition _escape_cdata (text : str) : str :=
  let text := if contains 38 text then replace 38 (u "&amp;") text else text in
  let text := if contains 60 text then replace 60 (u "&lt;") text else text in
  let text := if contains 62 text then replace 62 (u "&gt;") text else text in
  text.

Definition _escape_attrib (text : str) : str :=
  let text := if contains 38 text then replace 38 (u "&amp;") text else text in
  let text := if contains 60 text then replace 60 (u "&lt;") text else text in
  let text := if contains 62 text then replace 62 (u "&gt;") text else text in
  let text := if contains 34 text then replace 34 (u "&quot;") text else text in
  let text := if contains 13 text then replace 13 (u "&#13;") text else text in
  let text := if contains 10 text then replace 10 (u "&#10;") text else text in
  let text := if contains 9 text then replace 9 (u "&#09;") text else text in
  text.

(** [write(" %s=\"%s\"" % (k, _escape_attrib(v)))]; the names of this
    program carry no namespace, so [qnames] maps each to itself. *)
Definition write_item (kv : str * str) : str :=
  u " " ++ kv.1 ++ u "=" ++ [34] ++ _escape_attrib kv.2 ++ [34].

(** [write(_escape_cdata(text))] under [if text:]. *)
Definition write_text (text : option str) : str :=
  match text with
  | Some t => if truthy t then _escape_cdata t else []
  | None => []
  end.

(** What [_serialize_xml] writes for one element, [subs] being what the
    recursive calls write for its children ([short_empty_elements=True],
    no namespaces). *)
Definition write_element (e : Element) (subs : list str) : str :=
  u "<" ++ tag e ++ flat_map write_item (attrib e) ++
  (if truthy_opt (text e) || negb (Nat.eqb (length (children e)) 0)
   then u ">" ++ write_text (text e) ++ concat subs ++ u "</" ++ tag e ++ u ">"
   else u " />") ++
  write_text (tail e).

(** [_serialize_xml]: the recursion follows the children through the
    store; [fuel] bounds its depth as the interpreter's recursion limit
    does, and [None] stands for the exception raised when it is exhausted
    or an identity is dangling. *)
Fixpoint _serialize_xml (fuel : nat) (st : store) (elem : nat) : option str :=
  match fuel with
  | O => None
  | S fuel' =>
      match st !! elem with
      | None => None
      | Some e =>
          match mapM (_serialize_xml fuel' st) (children e) with
          | None => None
          | Some subs => Some (write_element e subs)
          end
      end
  end.

Definition recursion_limit : nat := 1000.

(** The [xmlcharrefreplace] error handler of the UTF-8 writer: a lone
    surrogate cannot be encoded and is written as a character reference. *)
Definition is_surrogate (c : N) : bool := (55296 <=? c) && (c <=? 57343).

Definition xmlcharrefreplace (c : N) : str :=
  if is_surrogate c then u "&#" ++ str_of_int c ++ u ";" else [c].

(** [ET.tostring(element, encoding='utf-8', method='xml').decode('utf-8')]:
    no declaration is written for UTF-8. *)
Definition tostring (st : store) (element : nat) : option str :=
  flat_map xmlcharrefreplace <$> _serialize_xml recursion_limit st element.

End ET.

(** ** The program *)

Module Rp.
Import Py ET.

(** The namespace returned by [parser.parse_args]. *)
Record Args := mkArgs {
  prompt : list str;              (* -p, repeatable; default [[]] *)
  file : list str;                (* -f, repeatable; default [[]] *)
  list_ : option str;             (* -l; default [None] *)
  output : option str;            (* -o; default [None] *)
  silent : bool;                  (* -s *)
  additional_prompts : list str   (* positional arguments *)
}.

(** What [open(filepath, 'r', encoding='utf-8')] and [f.read()] do: the
    decoded text is returned, or [IOError] is raised (the file cannot be
    opened or read), or the bytes are not valid UTF-8 and
    [UnicodeDecodeError] is raised, which is a [ValueError] and no
    [IOError]. *)
Inductive read_result : Type :=
  | Decoded (text : str)
  | IOError
  | UnicodeDecodeError.

(** The file system as [main] sees it. [contents] is what reading the path
    as UTF-8 text does; [can_write] tells whether opening the path for
    writing and writing to it succeeds. *)
Record FileSystem := mkFS {
  is_regular : str -> bool;
  contents : str -> read_result;
  can_write : str -> bool
}.

(** [os.path.isfile]: [os.stat] fails on the empty path, which therefore
    never names a file. *)
Definition isfile (fs : FileSystem) (path : str) : bool :=
  truthy path && is_regular fs path.

Definition read_file_content (fs : FileSystem) (filepath : str) : read_result :=
  contents fs filepath.

(** What one run leaves behind. *)
Record Outcome := mkOutcome {
  exit_code : Z;
  stdout : str;
  stderr : str;
  written : list (str * str)      (* files written: path and full text *)
}.

(** Control flow of the resolution phase: go on with a value, leave
    [main] with [return code] after [err] went to the diagnostic stream, or
    leave it by an exception that no [except] clause of [main] catches. *)
Inductive flow (A : Type) : Type :=
  | Continue (a : A)
  | Return (code : Z) (err : str)
  | Raise.
Arguments Continue {A} a.
Arguments Return {A} code err.
Arguments Raise {A}.

Definition and_then {A B} (m : flow A) (k : A -> flow B) : flow B :=
  match m with
  | Continue a => k a
  | Return code err => Return code err
  | Raise => Raise
  end.

Notation "'do' x '<-' m ';' k" := (and_then m (fun x => k))
  (at level 10, x name, m at level 100, k at level 200).

(** [print(msg, file=sys.stderr)] under [if not args.silent:]. *)
Definition eprint (args : Args) (msg : str) : str :=
  if silent args then [] else msg ++ [10].

(** A copy of a list argument: [xs[:] if xs else []]. *)
Definition copy_or_empty {A} (xs : list A) : list A :=
  match xs with [] => [] | _ :: _ => xs end.

(** Lines 91-106: the list file. *)
Definition read_list (args : Args) (fs : FileSystem) (file_paths : list str)
  : flow (list str) :=
  match list_ args with
  | Some l =>
      if truthy l then
        if negb (isfile fs l) then
          Return 1 (eprint args
            (u "Error: List file '" ++ l ++ u "' does not exist or is not accessible."))
        else
          match read_file_content fs l with
          | IOError =>
              Return 1 (eprint args
                (u "Error: Could not read list file '" ++ l ++ u "'."))
          | UnicodeDecodeError => Raise
          | Decoded list_content =>
              Continue
                (fold_left
                   (fun file_paths line =>
                      let line := strip line in
                      if truthy line then file_paths ++ [line] else file_paths)
                   (splitlines list_content) file_paths)
          end
      else Continue file_paths
  | None => Continue file_paths
  end.

(** Lines 109-121: the prompt template files. *)
Fixpoint read_templates (args : Args) (fs : FileSystem)
    (prompt_paths : list str) (templates : list (str * str))
  : flow (list (str * str)) :=
  match prompt_paths with
  | [] => Continue templates
  | ppath :: rest =>
      if negb (isfile fs ppath) then
        Return 1 (eprint args
          (u "Error: Prompt template file '" ++ ppath ++
           u "' does not exist or is not accessible."))
      else
        match read_file_content fs ppath with
        | IOError =>
            Return 1 (eprint args
              (u "Error: Could not read prompt template file '" ++ ppath ++ u "'."))
        | UnicodeDecodeError => Raise
        | Decoded t_content =>
            read_templates args fs rest (templates ++ [(ppath, t_content)])
        end
  end.

(** Lines 124-125: the inline prompts, numbered by [enumerate]. *)
Fixpoint add_inline (idx : nat) (inline_prompts : list str)
    (templates : list (str * str)) : list (str * str) :=
  match inline_prompts with
  | [] => templates
  | inline_prompt :: rest =>
      add_inline (S idx) rest
        (templates ++
           [(u "inline_prompt_" ++ str_of_int (N.of_nat (idx + 1)), inline_prompt)])
  end.

Definition default_template : str * str :=
  (u "default",
   u "Please analyze the provided files and summarize their purpose and functionality.").

(** Lines 131-143: the files. *)
Fixpoint read_files (args : Args) (fs : FileSystem)
    (file_paths : list str) (files_data : list (str * str))
  : flow (list (str * str)) :=
  match file_paths with
  | [] => Continue files_data
  | fpath :: rest =>
      if negb (isfile fs fpath) then
        Return 1 (eprint args
          (u "Error: File '" ++ fpath ++ u "' does not exist or is not accessible."))
      else
        match read_file_content fs fpath with
        | IOError =>
            Return 1 (eprint args
              (u "Error: Could not read file '" ++ fpath ++ u "'."))
        | UnicodeDecodeError => Raise
        | Decoded f_content =>
            read_files args fs rest (files_data ++ [(fpath, f_content)])
        end
  end.

(** Lines 87-143: everything [main] does before it builds the document. *)
Definition resolve (args : Args) (fs : FileSystem)
  : flow (list (str * str) * list (str * str)) :=
  let prompt_paths := copy_or_empty (prompt args) in
  let file_paths := copy_or_empty (file args) in
  let inline_prompts := copy_or_empty (additional_prompts args) in
  do file_paths <- read_list args fs file_paths;
  do templates <- read_templates args fs prompt_paths [];
  let templates := add_inline 0 inline_prompts templates in
  let templates :=
    match templates with [] => [default_template] | _ :: _ => templates end in
  do files_data <- read_files args fs file_paths [];
  Continue (templates, files_data).

(** Lines 146-157: the document. *)
Definition build_prompt (templates files_data : list (str * str)) : M nat :=
  let* prompt_el := Element_ (u "prompt") in
  let* templates_el := SubElement prompt_el (u "templates") in
  for_each templates (fun t =>
    let* t_el := SubElement templates_el (u "template") in
    set t_el (u "name") (basename t.1) ;;
    set_text t_el t.2) ;;
  let* files_el := SubElement prompt_el (u "files") in
  for_each files_data (fun f =>
    let* f_el := SubElement files_el (u "file") in
    set f_el (u "path") f.1 ;;
    set_text f_el f.2) ;;
  ret prompt_el.

(** Line 159: the rendered text. *)
Definition render (templates files_data : list (str * str)) : option str :=
  let '(prompt_el, st) := build_prompt templates files_data [] in
  tostring st prompt_el.

(** [len(final_str.split())] *)
Definition token_count (final_str : str) : N :=
  N.of_nat (length (split final_str)).

Definition success_line (final_str : str) : str :=
  u "Success: Prompt generated with " ++ str_of_int (token_count final_str) ++
  u " tokens.".

(** Lines 161-176: delivery of the text and the success report. *)
Definition deliver (args : Args) (fs : FileSystem) (final_str : str) : Outcome :=
  match output args with
  | Some out =>
      if truthy out then
        if can_write fs out then
          mkOutcome 0 [] (eprint args (success_line final_str)) [(out, final_str)]
        else
          mkOutcome 1 []
            (eprint args
               (u "Error: Could not write to output file '" ++ out ++ u "'.")) []
      else
        mkOutcome 0 (final_str ++ [10]) (eprint args (success_line final_str)) []
  | None =>
      mkOutcome 0 (final_str ++ [10]) (eprint args (success_line final_str)) []
  end.

(** [main] on parsed arguments. [None] is an exception that leaves [main]:
    [UnicodeDecodeError] from a read, or one escaping from the serializer,
    which [render_document] shows does not happen. *)
Definition main (args : Args) (fs : FileSystem) : option Outcome :=
  match resolve args fs with
  | Return code err => Some (mkOutcome code [] err [])
  | Raise => None
  | Continue (templates, files_data) =>
      match render templates files_data with
      | None => None
      | Some final_str => Some (deliver args fs final_str)
      end
  end.

End Rp.

(** ** What the specification says, in its own words *)

Module Spec.
Import Py ET Rp.

(** *** The shape of the rendered document *)

(** The text as it leaves the UTF-8 writer. *)
Definition encoded (s : str) : str := flat_map xmlcharrefreplace s.

(** A node [<tag key="value">text</tag>]; it closes itself when the text
    is empty. *)
Definition leaf_text (tg key value txt : str) : str :=
  u "<" ++ tg ++ u " " ++ key ++ u "=" ++ [34] ++
  encoded (_escape_attrib value) ++ [34] ++
  (if truthy txt
   then u ">" ++ encoded (_escape_cdata txt) ++ u "</" ++ tg ++ u ">"
   else u " />").

Definition template_text (t : str * str) : str :=
  leaf_text (u "template") (u "name") (basename t.1) t.2.

Definition file_text (f : str * str) : str :=
  leaf_text (u "file") (u "path") f.1 f.2.

(** A node that holds the given child nodes and nothing else; with no
    child it is present as an empty node. *)
Definition group_text (tg : str) (kids : list str) : str :=
  match kids with
  | [] => u "<" ++ tg ++ u " />"
  | _ :: _ => u "<" ++ tg ++ u ">" ++ concat kids ++ u "</" ++ tg ++ u ">"
  end.

Definition document_text (templates files_data : list (str * str)) : str :=
  u "<prompt>" ++
  group_text (u "templates") (map template_text templates) ++
  group_text (u "files") (map file_text files_data) ++
  u "</prompt>".

(** *** The file order *)

(** The paths a list file names: its non-blank lines, trimmed. *)
Definition listed_paths (list_content : str) : list str :=
  List.filter truthy (map strip (splitlines list_content)).

(** *** The token count *)

(** Position [i] of [s] starts a maximal run of non-whitespace characters:
    the character there is not whitespace and it is the first of the text
    or follows a whitespace character. *)
Definition starts_run (s : str) (i : nat) : bool :=
  match s !! i with
  | Some c =>
      negb (isspace c) &&
      match i with
      | O => true
      | S j => match s !! j with Some p => isspace p | None => false end
      end
  | None => false
  end.

(** The number of maximal runs of non-whitespace characters of [s]. *)
Definition count_runs (s : str) : nat :=
  length (List.filter (starts_run s) (seq 0 (length s))).

(** *** Inputs a run refers to *)

(** The paths whose existence and contents a run may consult: the list
    file and the paths it names, the template files and the files. *)
Definition referenced (args : Args) (fs : FileSystem) : list str :=
  match list_ args with
  | Some l =>
      l :: match read_file_content fs l with
           | Decoded list_content => listed_paths list_content
           | _ => []
           end
  | None => []
  end ++ prompt args ++ file args.

(** The file paths an invocation names: those of the [--file] flags and
    those a readable list file lists. *)
Definition named_files (args : Args) (fs : FileSystem) : list str :=
  file args ++
  match list_ args with
  | Some l =>
      if isfile fs l then
        match read_file_content fs l with
        | Decoded list_content => listed_paths list_content
        | _ => []
        end
      else []
  | None => []
  end.

(** A path that is not a file or cannot be read: the cases [main] answers
    with a diagnostic. *)
Definition unreadable (fs : FileSystem) (path : str) : bool :=
  negb (isfile fs path) ||
  match read_file_content fs path with IOError => true | _ => false end.

(** A file that is read as text. *)
Definition readable (fs : FileSystem) (path : str) : bool :=
  isfile fs path &&
  match read_file_content fs path with Decoded _ => true | _ => false end.

(** A file whose bytes are not valid UTF-8. *)
Definition undecodable (fs : FileSystem) (path : str) : bool :=
  isfile fs path &&
  match read_file_content fs path with UnicodeDecodeError => true | _ => false end.

(** [needle in haystack] for strings. *)
Fixpoint starts_with (needle haystack : str) : bool :=
  match needle, haystack with
  | [], _ => true
  | _ :: _, [] => false
  | a :: needle', b :: haystack' => (a =? b) && starts_with needle' haystack'
  end.

Fixpoint occurs_in (needle haystack : str) : bool :=
  starts_with needle haystack ||
  match haystack with
  | [] => false
  | _ :: haystack' => occurs_in needle haystack'
  end.

(** *** Resolution *)

(** The entry a readable path contributes: the path and its text. *)
Definition entry (fs : FileSystem) (path : str) : str * str :=
  (path, match read_file_content fs path with Decoded s => s | _ => [] end).

(** The templates of the positional arguments, numbered from one. *)
Definition inline_templates (inline_prompts : list str) : list (str * str) :=
  imap (fun i p => (u "inline_prompt_" ++ str_of_int (N.of_nat (i + 1)), p))
       inline_prompts.

(** The list file, if one is named, is read. *)
Definition list_readable (args : Args) (fs : FileSystem) : bool :=
  match list_ args with
  | Some l => negb (truthy l) || readable fs l
  | None => true
  end.

(** The text can be delivered: there is no output path, or it can be
    written. *)
Definition deliverable (args : Args) (fs : FileSystem) : bool :=
  match output args with
  | Some out => negb (truthy out) || can_write fs out
  | None => true
  end.

(** The diagnostic for an unreadable list file, for an unreadable template
    file and for an unreadable file. *)
Definition list_error (fs : FileSystem) (l : str) : str :=
  if negb (isfile fs l)
  then u "Error: List file '" ++ l ++ u "' does not exist or is not accessible."
  else u "Error: Could not read list file '" ++ l ++ u "'.".

Definition template_error (fs : FileSystem) (ppath : str) : str :=
  if negb (isfile fs ppath)
  then u "Error: Prompt template file '" ++ ppath ++
       u "' does not exist or is not accessible."
  else u "Error: Could not read prompt template file '" ++ ppath ++ u "'.".

Definition file_error (fs : FileSystem) (fpath : str) : str :=
  if negb (isfile fs fpath)
  then u "Error: File '" ++ fpath ++ u "' does not exist or is not accessible."
  else u "Error: Could not read file '" ++ fpath ++ u "'.".

(** The default template stands in for an empty template list. *)
Definition or_default (templates : list (str * str)) : list (str * str) :=
  match templates with [] => [default_template] | _ :: _ => templates end.

(** The rendered text of a run that gets as far as rendering. *)
Definition final_str (args : Args) (fs : FileSystem) : option str :=
  match resolve args fs with
  | Continue (templates, files_data) => render templates files_data
  | Return _ _ => None
  | Raise => None
  end.

(** The inputs of a run in the order in which [main] reads them: the list
    file, the template files, the files. *)
Definition inputs (args : Args) (fs : FileSystem) : list str :=
  match list_ args with
  | Some l => if truthy l then [l] else []
  | None => []
  end ++ prompt args ++ named_files args fs.

(** The first input that is not read as text, if there is one, is a file
    whose bytes are not valid UTF-8: the run ends in [UnicodeDecodeError]. *)
Definition raises (args : Args) (fs : FileSystem) : bool :=
  match List.find (fun path => negb (readable fs path)) (inputs args fs) with
  | Some path => undecodable fs path
  | None => false
  end.

(** The same invocation with or without [-s]. *)
Definition with_silent (b : bool) (args : Args) : Args :=
  mkArgs (prompt args) (file args) (list_ args) (output args) b
         (additional_prompts args).

(** Two file systems show the same thing at a path. *)
Definition agree (fs1 fs2 : FileSystem) (path : str) : Prop :=
  is_regular fs1 path = is_regular fs2 path /\
  contents fs1 path = contents fs2 path.

End Spec.

(** ** Reading the output format back

    The part of an XML 1.0 processor that recovers character data and
    attribute values: legal characters (section 2.2), end-of-line handling
    (2.11), character and predefined entity references (4.1, 4.6), the
    ban of [<] in attribute values and of [[]]>] in content (2.4, 3.1) and
    attribute-value normalization (3.3.3). *)

Module Xml.
Import Py.

(** [Char] of section 2.2. *)
Definition is_char (c : N) : bool :=
  (c =? 9) || (c =? 10) || (c =? 13)
  || ((32 <=? c) && (c <=? 55295))
  || ((57344 <=? c) && (c <=? 65533))
  || ((65536 <=? c) && (c <=? 1114111)).

Definition digit_value (c : N) : option N :=
  if (48 <=? c) && (c <=? 57) then Some (c - 48) else None.

Definition hex_value (c : N) : option N :=
  if (48 <=? c) && (c <=? 57) then Some (c - 48)
  else if (65 <=? c) && (c <=? 70) then Some (c - 55)
  else if (97 <=? c) && (c <=? 102) then Some (c - 87)
  else None.

(** The entities every document declares. *)
Definition predefined (name : str) : option N :=
  if decide (name = u "amp") then Some 38
  else if decide (name = u "lt") then Some 60
  else if decide (name = u "gt") then Some 62
  else if decide (name = u "apos") then Some 39
  else if decide (name = u "quot") then Some 34
  else None.

(** Where the reader stands inside a reference. *)
Inductive ref_state : Type :=
  | Amp                    (* after [&] *)
  | Name (acc : str)       (* an entity name, newest character first *)
  | Hash                   (* after [&#] *)
  | Dec (n : N)            (* decimal digits read so far *)
  | HexStart               (* after [&#x] *)
  | Hex (n : N).           (* hexadecimal digits read so far *)

Inductive ref_step : Type :=
  | More (r : ref_state)
  | Done (c : N)
  | Bad.

Definition step_ref (r : ref_state) (c : N) : ref_step :=
  match r with
  | Amp => if c =? 35 then More Hash
           else if c =? 59 then Bad else More (Name [c])
  | Name acc =>
      if c =? 59 then
        match predefined (rev acc) with Some x => Done x | None => Bad end
      else More (Name (c :: acc))
  | Hash =>
      if c =? 120 then More HexStart
      else match digit_value c with Some d => More (Dec d) | None => Bad end
  | Dec n =>
      if c =? 59 then (if is_char n then Done n else Bad)
      else match digit_value c with
           | Some d => More (Dec (10 * n + d))
           | None => Bad
           end
  | HexStart =>
      match hex_value c with Some d => More (Hex d) | None => Bad end
  | Hex n =>
      if c =? 59 then (if is_char n then Done n else Bad)
      else match hex_value c with
           | Some d => More (Hex (16 * n + d))
           | None => Bad
           end
  end.

(** The reader is in plain text, having just passed [brackets] closing
    square brackets, or inside a reference. *)
Inductive mode : Type :=
  | Text (brackets : nat)
  | Ref (r : ref_state).

(** Character data up to the next markup: the text it denotes and the
    input that remains, or [None] when the input is not well-formed. *)
Fixpoint chardata_from (m : mode) (out : str) (s : str) : option (str * str) :=
  match s with
  | [] => match m with Text _ => Some (rev out, []) | Ref _ => None end
  | c :: s' =>
      match m with
      | Ref r =>
          match step_ref r c with
          | More r' => chardata_from (Ref r') out s'
          | Done x => chardata_from (Text 0) (x :: out) s'
          | Bad => None
          end
      | Text b =>
          if c =? 60 then Some (rev out, s)
          else if c =? 38 then chardata_from (Ref Amp) out s'
          else if negb (is_char c) then None
          else if c =? 13 then
            match s' with
            | c' :: s'' =>
                if c' =? 10 then chardata_from (Text 0) (10 :: out) s''
                else chardata_from (Text 0) (10 :: out) s'
            | [] => chardata_from (Text 0) (10 :: out) s'
            end
          else if (c =? 62) && (Nat.leb 2 b) then None
          else chardata_from (Text (if c =? 93 then S b else 0)) (c :: out) s'
      end
  end.

Definition chardata (s : str) : option (str * str) := chardata_from (Text 0) [] s.

(** An attribute value after its opening double quote, up to the closing
    one: the normalized value and the input after the closing quote. *)
Fixpoint attvalue_from (r : option ref_state) (out : str) (s : str)
  : option (str * str) :=
  match s with
  | [] => None
  | c :: s' =>
      match r with
      | Some r =>
          match step_ref r c with
          | More r' => attvalue_from (Some r') out s'
          | Done x => attvalue_from None (x :: out) s'
          | Bad => None
          end
      | None =>
          if c =? 34 then Some (rev out, s')
          else if c =? 60 then None
          else if c =? 38 then attvalue_from (Some Amp) out s'
          else if negb (is_char c) then None
          else if c =? 13 then
            match s' with
            | c' :: s'' =>
                if c' =? 10 then attvalue_from None (32 :: out) s''
                else attvalue_from None (32 :: out) s'
            | [] => attvalue_from None (32 :: out) s'
            end
          else if (c =? 10) || (c =? 9) then attvalue_from None (32 :: out) s'
          else attvalue_from None (c :: out) s'
      end
  end.

Definition attvalue (s : str) : option (str * str) := attvalue_from None [] s.

(** *** The document *)

(** [s] without the leading [p], if it starts with it. *)
Fixpoint strip_prefix (p s : str) : option str :=
  match p with
  | [] => Some s
  | a :: p' =>
      match s with
      | b :: s' => if a =? b then strip_prefix p' s' else None
      | [] => None
      end
  end.

(** An element [<tg key="value">text</tg>] or [<tg key="value" />] in the
    layout of the serializer: its attribute value and its text. *)
Definition read_leaf (tg key : str) (s : str) : option ((str * str) * str) :=
  s1 ← strip_prefix (u "<" ++ tg ++ u " " ++ key ++ u "=" ++ [34]) s;
  '(value, s2) ← attvalue s1;
  match strip_prefix (u " />") s2 with
  | Some s3 => Some ((value, []), s3)
  | None =>
      s3 ← strip_prefix (u ">") s2;
      '(txt, s4) ← chardata s3;
      s5 ← strip_prefix (u "</" ++ tg ++ u ">") s4;
      Some ((value, txt), s5)
  end.

(** The elements up to the next end tag; [fuel] bounds their number. *)
Fixpoint read_leaves (fuel : nat) (tg key : str) (s : str)
  : option (list (str * str) * str) :=
  match fuel with
  | O => None
  | S fuel' =>
      match strip_prefix (u "</") s with
      | Some _ => Some ([], s)
      | None =>
          '(x, s1) ← read_leaf tg key s;
          '(xs, s2) ← read_leaves fuel' tg key s1;
          Some (x :: xs, s2)
      end
  end.

(** An element [<tg>...</tg>] that holds elements [child] only, or the
    empty [<tg />]. *)
Definition read_group (fuel : nat) (tg child key : str) (s : str)
  : option (list (str * str) * str) :=
  match strip_prefix (u "<" ++ tg ++ u " />") s with
  | Some s1 => Some ([], s1)
  | None =>
      s1 ← strip_prefix (u "<" ++ tg ++ u ">") s;
      '(xs, s2) ← read_leaves fuel child key s1;
      s3 ← strip_prefix (u "</" ++ tg ++ u ">") s2;
      Some (xs, s3)
  end.

(** The whole document: the name and text of every template and the path
    and text of every file, or [None] when the input is not a well-formed
    document of this format. *)
Definition read_document (s : str) : option (list (str * str) * list (str * str)) :=
  s1 ← strip_prefix (u "<prompt>") s;
  '(templates, s2) ← read_group (length s) (u "templates") (u "template") (u "name") s1;
  '(files, s3) ← read_group (length s) (u "files") (u "file") (u "path") s2;
  s4 ← strip_prefix (u "</prompt>") s3;
  match s4 with [] => Some (templates, files) | _ :: _ => None end.

(** Strings the format can carry: an attribute value of legal characters,
    a text of legal characters without carriage return. *)
Definition legal_value (value : str) : Prop :=
  Forall (fun c => is_char c = true) value.

Definition legal_text (txt : str) : Prop :=
  Forall (fun c => is_char c = true /\ c <> 13) txt.

Definition legal_entry (x : str * str) : Prop :=
  legal_value x.1 /\ legal_text x.2.

(** The same conditions as tests. *)
Definition legal_valueb (value : str) : bool := forallb is_char value.

Definition legal_textb (txt : str) : bool :=
  forallb (fun c => is_char c && negb (c =? 13)) txt.

Definition legal_entryb (x : str * str) : bool :=
  legal_valueb x.1 && legal_textb x.2.

End Xml.

(** ** Auxiliary definitions

    Closed forms that the proofs compare the program with. *)

Module Aux.
Import Py ET Rp.

(** What the escaping functions do to one character. *)
Definition cdata_char (c : N) : str :=
  if c =? 38 then u "&amp;"
  else if c =? 60 then u "&lt;"
  else if c =? 62 then u "&gt;"
  else [c].

Definition attrib_char (c : N) : str :=
  if c =? 38 then u "&amp;"
  else if c =? 60 then u "&lt;"
  else if c =? 62 then u "&gt;"
  else if c =? 34 then u "&quot;"
  else if c =? 13 then u "&#13;"
  else if c =? 10 then u "&#10;"
  else if c =? 9 then u "&#09;"
  else [c].

(** Elements of the shapes [main] builds. *)
Definition add_kids (ks : list nat) (e : Element) : Element :=
  mkElement (tag e) (attrib e) (text e) (children e ++ ks) (tail e).

Definition leaf (tg key value txt : str) : Element :=
  mkElement tg [(key, value)] (Some txt) [] None.

Definition group (tg : str) (kids : list nat) : Element :=
  mkElement tg [] None kids None.

Definition add_leaf (parent : nat) (tg key : str) (value : str * str -> str)
    (x : str * str) : M unit :=
  let* el := SubElement parent tg in
  set el key (value x) ;;
  set_text el x.2.

Definition template_leaf (t : str * str) : Element :=
  leaf (u "template") (u "name") (basename t.1) t.2.
Definition file_leaf (f : str * str) : Element :=
  leaf (u "file") (u "path") f.1 f.2.

Definition prompt_store (templates files_data : list (str * str)) : store :=
  [group (u "prompt") [1; 2 + length templates]%nat;
   group (u "templates") (seq 2 (length templates))] ++
  map template_leaf templates ++
  [group (u "files") (seq (3 + length templates) (length files_data))] ++
  map file_leaf files_data.

(** The text [_serialize_xml] writes for the whole store. *)
Definition raw_document (ts fs : list (str * str)) : str :=
  write_element (group (u "prompt") [1; 2 + length ts]%nat)
    [write_element (group (u "templates") (seq 2 (length ts)))
       (map (fun t => write_element (template_leaf t) []) ts);
     write_element (group (u "files") (seq (3 + length ts) (length fs)))
       (map (fun f => write_element (file_leaf f) []) fs)].

(** The runs of non-whitespace characters that start in [s], read from
    left to right; [prev_ws] tells whether a run may start at once. *)
Fixpoint runs (prev_ws : bool) (s : str) : nat :=
  match s with
  | [] => 0
  | c :: s' =>
      (if prev_ws && negb (isspace c) then 1 else 0) + runs (isspace c) s'
  end.

(** [starts_run] for a text that follows a character of which [prev_ws]
    tells whether it is whitespace. *)
Definition starts_run_after (prev_ws : bool) (s : str) (i : nat) : bool :=
  match s !! i with
  | Some c =>
      negb (isspace c) &&
      match i with
      | O => prev_ws
      | S j => match s !! j with Some p => isspace p | None => false end
      end
  | None => false
  end.


End Aux.

Module Examples.
Import Py Rp.

(** A file system given by the regular, readable files it holds; every
    other path is not a file, and opening it fails. *)
Fixpoint find_file (files : list (str * str)) (path : str) : option str :=
  match files with
  | [] => None
  | (name, body) :: rest =>
      if decide (path = name) then Some body else find_file rest path
  end.

Definition disk (files : list (str * str)) : FileSystem :=
  mkFS (fun path => match find_file files path with Some _ => true | None => false end)
       (fun path =>
          match find_file files path with Some body => Decoded body | None => IOError end)
       (fun _ => true).

(** [rp -f A -f B -l list.txt], the list naming [C] and [D]. *)
Definition disk_abcd : FileSystem :=
  disk [(u "A", u "alpha"); (u "B", u "beta"); (u "C", u "gamma");
        (u "D", u "delta"); (u "list.txt", u "C" ++ [10] ++ u "D" ++ [10])].

(** The same files and one more that no argument refers to. *)
Definition disk_abcd_more : FileSystem :=
  disk [(u "A", u "alpha"); (u "B", u "beta"); (u "C", u "gamma");
        (u "D", u "delta"); (u "list.txt", u "C" ++ [10] ++ u "D" ++ [10]);
        (u "Z", u "omega")].

Definition args_abcd : Args :=
  mkArgs [] [u "A"; u "B"] (Some (u "list.txt")) None false [].

(** [rp ""]: one positional argument, the empty string. *)
Definition args_empty_prompt : Args := mkArgs [] [] None None false [[]].


(** [rp -p nope.txt -f missing.txt] where neither file exists. *)
Definition args_two_missing : Args :=
  mkArgs [u "nope.txt"] [u "missing.txt"] None None false [].

(** [rp -f missing.txt] *)
Definition args_missing : Args := mkArgs [] [u "missing.txt"] None None false [].

(** [rp -o "" -f A]: an output option whose path is the empty string. *)
Definition args_empty_output : Args := mkArgs [] [u "A"] None (Some []) false [].

(** [rp -o out.xml -f A] *)
Definition args_output : Args :=
  mkArgs [] [u "A"] None (Some (u "out.xml")) false [].

(** [rp $'a\rb']: a positional argument with a carriage return, and a
    file that holds a form feed. *)
Definition args_carriage_return : Args :=
  mkArgs [] [] None None false [u "a" ++ [13] ++ u "b"].

Definition disk_form_feed : FileSystem := disk [(u "page.txt", u "a" ++ [12] ++ u "b")].

Definition args_form_feed : Args := mkArgs [] [u "page.txt"] None None false [].



(** The patched file system of the program's own tests: every path is a
    file and every read returns [read_data]. *)
Definition mocked (read_data : str) : FileSystem :=
  mkFS (fun _ => true) (fun _ => Decoded read_data) (fun _ => true).

(** What a test sees: exit code, standard output, diagnostic stream. *)
Definition run (argv : Args) (fs : FileSystem) : option (Z * str * str) :=
  match main argv fs with
  | Some o => Some (exit_code o, stdout o, stderr o)
  | None => None
  end.

(** [assertEqual(exit_code, code)] with [assertIn] on both streams. *)
Definition passes (result : option (Z * str * str)) (code : Z)
    (in_stdout in_stderr : list str) : bool :=
  match result with
  | Some (c, out, err) =>
      Z.eqb c code &&
      forallb (fun needle => Spec.occurs_in needle out) in_stdout &&
      forallb (fun needle => Spec.occurs_in needle err) in_stderr
  | None => false
  end.

End Examples.

(** ** Notions for the further properties *)

Module MoreDefs.
Import Py ET Rp Spec.

(** How often [c] occurs in [s]. *)
Definition occurrences (c : N) (s : str) : nat := count_occ N.eq_dec s c.

(** The tags of a node with attribute and text, of a node that groups
    such nodes, and of the whole document. *)
Definition leaf_tags (x : str * str) : nat := if truthy x.2 then 2 else 1.

Definition group_tags (xs : list (str * str)) : nat :=
  match xs with
  | [] => 1
  | _ :: _ => 2 + list_sum (map leaf_tags xs)
  end.

Definition document_tags (templates files_data : list (str * str)) : nat :=
  2 + group_tags templates + group_tags files_data.

(** Characters that the serializer copies as they are into text and into
    attribute values. *)
Definition plain_in_text (c : N) : bool :=
  negb ((c =? 38) || (c =? 60) || (c =? 62) || is_surrogate c).

Definition plain_in_value (c : N) : bool :=
  plain_in_text c && negb ((c =? 34) || (c =? 13) || (c =? 10) || (c =? 9)).

End MoreDefs.

Module RunDefs.
Import Py ET Rp Spec Examples.


(** The same invocation without [-l]. *)
Definition without_list (args : Args) : Args :=
  mkArgs (prompt args) (file args) None (output args) (silent args)
         (additional_prompts args).

(** The files of [disk_abcd] on a medium that cannot be written. *)
Definition disk_read_only : FileSystem :=
  mkFS (is_regular disk_abcd) (contents disk_abcd) (fun _ => false).

(** A list file of blank lines only. *)
Definition disk_blank_list : FileSystem :=
  disk [(u "A", u "alpha"); (u "list.txt", u "  " ++ [10; 9; 13; 10] ++ u " ")].

End RunDefs.

(** * Properties *)

Module EscapeFacts.
Import Py ET Aux.

Lemma replace_absent c new text :
  contains c text = false -> replace c new text = text.
Proof.
  unfold contains, replace.
  induction text as [|x text IH]; simpl; [done|].
  intros [Hx Ht]%orb_false_iff.
  rewrite N.eqb_sym, Hx. simpl. by rewrite IH.
Qed.

Lemma guarded_replace c new text :
  (if contains c text then replace c new text else text) = replace c new text.
Proof.
  destruct (contains c text) eqn:E; [done|]. by rewrite replace_absent.
Qed.

Lemma flat_map_compose {A B C} (f : A -> list B) (g : B -> list C) (l : list A) :
  flat_map g (flat_map f l) = flat_map (fun x => flat_map g (f x)) l.
Proof.
  induction l as [|x l IH]; simpl; [done|].
  by rewrite flat_map_app, IH.
Qed.

Lemma _escape_cdata_chars text : _escape_cdata text = flat_map cdata_char text.
Proof.
  unfold _escape_cdata. rewrite !guarded_replace. unfold replace.
  rewrite !flat_map_compose. apply flat_map_ext. intros c.
  unfold cdata_char.
  destruct (N.eqb_spec c 38) as [->|E1]; [reflexivity|].
  destruct (N.eqb_spec c 60) as [->|E2]; [reflexivity|].
  destruct (N.eqb_spec c 62) as [->|E3]; [reflexivity|].
  simpl.
  repeat match goal with
  | H : c <> ?k |- context [c =? ?k] => rewrite (proj2 (N.eqb_neq c k) H); simpl
  end.
  reflexivity.
Qed.

Lemma _escape_attrib_chars text : _escape_attrib text = flat_map attrib_char text.
Proof.
  unfold _escape_attrib. rewrite !guarded_replace. unfold replace.
  rewrite !flat_map_compose. apply flat_map_ext. intros c.
  unfold attrib_char.
  destruct (N.eqb_spec c 38) as [->|E1]; [reflexivity|].
  destruct (N.eqb_spec c 60) as [->|E2]; [reflexivity|].
  destruct (N.eqb_spec c 62) as [->|E3]; [reflexivity|].
  destruct (N.eqb_spec c 34) as [->|E4]; [reflexivity|].
  destruct (N.eqb_spec c 13) as [->|E5]; [reflexivity|].
  destruct (N.eqb_spec c 10) as [->|E6]; [reflexivity|].
  destruct (N.eqb_spec c 9) as [->|E7]; [reflexivity|].
  simpl.
  repeat match goal with
  | H : c <> ?k |- context [c =? ?k] => rewrite (proj2 (N.eqb_neq c k) H); simpl
  end.
  reflexivity.
Qed.
End EscapeFacts.

Module StoreFacts.
Import Py ET Aux.

Lemma add_kids_nil e : add_kids [] e = e.
Proof. destruct e. unfold add_kids. simpl. by rewrite app_nil_r. Qed.

Lemma add_kids_app ks ks' e : add_kids ks' (add_kids ks e) = add_kids (ks ++ ks') e.
Proof. unfold add_kids. simpl. by rewrite app_assoc. Qed.

Lemma add_leaf_run parent tg key value x (st : store) :
  (parent < length st)%nat ->
  add_leaf parent tg key value x st =
  (tt, alter (add_kids [length st]) parent st ++ [leaf tg key (value x) x.2]).
Proof.
  intros Hlt.
  unfold add_leaf, SubElement, Element_, append, set, set_text, bind, ret.
  f_equal.
  rewrite alter_app_l by done.
  pose proof (length_alter (add_kids [length st]) st parent) as Hlen.
  set (st1 := alter _ parent st) in *.
  replace (length st) with (length st1 + 0)%nat at 1 2 by lia.
  rewrite !alter_app_r. reflexivity.
Qed.

Lemma for_each_add_leaf parent tg key value (xs : list (str * str)) (st : store) :
  (parent < length st)%nat ->
  for_each xs (add_leaf parent tg key value) st =
  (tt, alter (add_kids (seq (length st) (length xs))) parent st ++
       map (fun x => leaf tg key (value x) x.2) xs).
Proof.
  revert st. induction xs as [|x xs IH]; intros st Hlt; simpl.
  - unfold ret. f_equal. rewrite app_nil_r.
    symmetry. apply list_alter_id, add_kids_nil.
  - unfold bind. rewrite add_leaf_run by done.
    rewrite IH by (rewrite length_app, length_alter; lia).
    f_equal.
    rewrite length_app, length_alter. simpl.
    rewrite alter_app_l by (rewrite length_alter; done).
    rewrite list_alter_alter_eq.
    rewrite <- app_assoc. simpl. f_equal.
    + apply list_alter_ext; [|done]. intros e _. simpl.
      rewrite add_kids_app. simpl. by rewrite Nat.add_1_r.
Qed.
End StoreFacts.

Module BuildFacts.
Import Py ET Rp Aux StoreFacts.

Lemma build_prompt_as_loops templates files_data :
  build_prompt templates files_data =
  (let* prompt_el := Element_ (u "prompt") in
   let* templates_el := SubElement prompt_el (u "templates") in
   for_each templates
     (add_leaf templates_el (u "template") (u "name") (fun t => basename t.1)) ;;
   let* files_el := SubElement prompt_el (u "files") in
   for_each files_data (add_leaf files_el (u "file") (u "path") fst) ;;
   ret prompt_el).
Proof. reflexivity. Qed.

Lemma build_prompt_store templates files_data :
  build_prompt templates files_data [] = (0%nat, prompt_store templates files_data).
Proof.
  rewrite build_prompt_as_loops.
  unfold bind at 1. simpl.
  unfold bind at 1. simpl.
  unfold bind at 1.
  rewrite for_each_add_leaf by (simpl; lia).
  simpl.
  unfold bind at 1.
  set (k := length templates).
  unfold SubElement, Element_, append, bind, ret at 1. simpl.
  rewrite !length_map. fold k.
  rewrite for_each_add_leaf
    by (simpl; rewrite length_app, length_map; simpl; lia).
  unfold ret. f_equal.
  simpl. rewrite length_app, length_map. fold k. simpl.
  unfold prompt_store. fold k. simpl.
  f_equal. f_equal.
  change (map _ templates) with (map template_leaf templates).
  change (map _ files_data) with (map file_leaf files_data).
  change (list_alter ?f ?i ?l) with (alter f i l).
  replace (S (S (k + 1))) with (S (S (S k))) by lia.
  replace k with (length (map template_leaf templates) + 0)%nat at 2
    by (rewrite length_map; unfold k; lia).
  rewrite alter_app_r, <- app_assoc. reflexivity.
Qed.
End BuildFacts.

Module SerializeFacts.
Import Py ET Rp Spec Aux StoreFacts BuildFacts.

Lemma serialize_childless fuel (st : store) i e :
  st !! i = Some e -> children e = [] ->
  _serialize_xml (S fuel) st i = Some (write_element e []).
Proof. intros Hi Hk. simpl. rewrite Hi, Hk. reflexivity. Qed.

Lemma serialize_row fuel (st : store) (mk : str * str -> Element)
    (xs : list (str * str)) base :
  (forall x, children (mk x) = []) ->
  (forall i x, xs !! i = Some x -> st !! (base + i)%nat = Some (mk x)) ->
  mapM (_serialize_xml (S fuel) st) (seq base (length xs)) =
  Some (map (fun x => write_element (mk x) []) xs).
Proof.
  intros Hmk. revert base.
  induction xs as [|x xs IH]; intros base Hst; [reflexivity|].
  cbn [length seq mapM map].
  rewrite (serialize_childless fuel st base (mk x)); [|
    rewrite <- (Nat.add_0_r base); by apply Hst | apply Hmk].
  cbn [mbind option_bind].
  rewrite IH; [reflexivity|].
  intros i y Hy. replace (S base + i)%nat with (base + S i)%nat by lia.
  by apply Hst.
Qed.

Lemma lookup_skip2 {A} (a b : A) l n : ([a; b] ++ l) !! (2 + n)%nat = l !! n.
Proof. reflexivity. Qed.

Ltac skip2 :=
  match goal with
  | |- context [(3 + ?n + ?j)%nat] =>
      replace (3 + n + j)%nat with (2 + (1 + n + j))%nat by lia
  | _ => idtac
  end;
  rewrite lookup_skip2.

Lemma prompt_store_root ts fs :
  prompt_store ts fs !! 0%nat = Some (group (u "prompt") [1; 2 + length ts]%nat).
Proof. reflexivity. Qed.

Lemma prompt_store_templates ts fs :
  prompt_store ts fs !! 1%nat = Some (group (u "templates") (seq 2 (length ts))).
Proof. reflexivity. Qed.

Lemma prompt_store_template ts fs i t :
  ts !! i = Some t -> prompt_store ts fs !! (2 + i)%nat = Some (template_leaf t).
Proof.
  intros Ht. unfold prompt_store; skip2.
  apply lookup_app_l_Some. by rewrite list_lookup_fmap, Ht.
Qed.

Lemma prompt_store_files ts fs :
  prompt_store ts fs !! (2 + length ts)%nat =
  Some (group (u "files") (seq (3 + length ts) (length fs))).
Proof.
  unfold prompt_store; skip2.
  rewrite lookup_app_r by (rewrite length_map; lia).
  rewrite length_map, Nat.sub_diag. reflexivity.
Qed.

Lemma prompt_store_file ts fs j f :
  fs !! j = Some f ->
  prompt_store ts fs !! (3 + length ts + j)%nat = Some (file_leaf f).
Proof.
  intros Hf. unfold prompt_store; skip2.
  rewrite lookup_app_r by (rewrite length_map; lia).
  rewrite length_map.
  replace (1 + length ts + j - length ts)%nat with (S j) by lia.
  change (map file_leaf fs !! j = Some (file_leaf f)).
  by rewrite list_lookup_fmap, Hf.
Qed.

Lemma serialize_node fuel (st : store) i e subs :
  st !! i = Some e ->
  mapM (_serialize_xml fuel st) (children e) = Some subs ->
  _serialize_xml (S fuel) st i = Some (write_element e subs).
Proof. intros Hi Hs. simpl. by rewrite Hi, Hs. Qed.

Lemma serialize_prompt_store fuel ts fs :
  _serialize_xml (3 + fuel) (prompt_store ts fs) 0 = Some (raw_document ts fs).
Proof.
  apply (serialize_node _ _ _ _ _ (prompt_store_root ts fs)).
  cbn [children group mapM].
  rewrite (serialize_node _ _ _ _ _ (prompt_store_templates ts fs)
             (serialize_row fuel _ template_leaf ts 2
                (fun _ => eq_refl) (prompt_store_template ts fs))).
  rewrite (serialize_node _ _ _ _ _ (prompt_store_files ts fs)
             (serialize_row fuel _ file_leaf fs (3 + length ts)
                (fun _ => eq_refl) (prompt_store_file ts fs))).
  reflexivity.
Qed.
End SerializeFacts.

Module RenderFacts.
Import Py ET Rp Spec Aux StoreFacts BuildFacts SerializeFacts.

Lemma encoded_app s1 s2 : encoded (s1 ++ s2) = encoded s1 ++ encoded s2.
Proof. apply flat_map_app. Qed.

Lemma encoded_concat l : encoded (concat l) = concat (map encoded l).
Proof.
  induction l as [|x l IH]; [reflexivity|].
  simpl. by rewrite encoded_app, IH.
Qed.

Lemma encoded_not_surrogate s :
  Forall (fun c => is_surrogate c = false) s -> encoded s = s.
Proof.
  induction 1 as [|c s Hc _ IH]; [reflexivity|].
  unfold encoded in *. simpl. unfold xmlcharrefreplace at 1.
  rewrite Hc. simpl. by rewrite IH.
Qed.

Lemma literal_not_surrogate s : Forall (fun c => is_surrogate c = false) (u s).
Proof.
  induction s as [|a s IH]; constructor; [|done].
  pose proof (N_ascii_bounded a) as Hb. unfold is_surrogate.
  apply andb_false_iff. left. apply N.leb_gt. lia.
Qed.

Lemma encoded_literal s : encoded (u s) = u s.
Proof. apply encoded_not_surrogate, literal_not_surrogate. Qed.

Lemma encoded_leaf tg key value txt :
  encoded (write_element (leaf (u tg) (u key) value txt) []) =
  leaf_text (u tg) (u key) value txt.
Proof.
  unfold write_element, leaf_text, leaf, write_item, write_text.
  cbn [tag attrib text children tail truthy_opt length Nat.eqb negb flat_map
       concat fst snd].
  rewrite orb_false_r, !app_nil_r.
  destruct (truthy txt);
    rewrite ?encoded_app, ?encoded_literal; rewrite <- ?app_assoc; reflexivity.
Qed.

Lemma encoded_group tg base (kids : list str) :
  encoded (write_element (group (u tg) (seq base (length kids))) kids) =
  group_text (u tg) (map encoded kids).
Proof.
  unfold write_element, group_text, group, write_text.
  cbn [tag attrib text children tail truthy_opt flat_map orb].
  rewrite !app_nil_r, length_seq.
  destruct kids as [|kid kids].
  - cbn [length Nat.eqb negb map]. by rewrite !encoded_app, !encoded_literal.
  - cbn [length Nat.eqb negb map app].
    rewrite !encoded_app, !encoded_literal, encoded_concat. reflexivity.
Qed.

Lemma encoded_raw_document ts fs :
  encoded (raw_document ts fs) = document_text ts fs.
Proof.
  unfold raw_document, document_text.
  pose proof (encoded_group "templates" 2
                (map (fun t => write_element (template_leaf t) []) ts)) as Ht.
  pose proof (encoded_group "files" (3 + length ts)
                (map (fun f => write_element (file_leaf f) []) fs)) as Hf.
  rewrite length_map, map_map in Ht, Hf.
  assert (Et : map (fun t => encoded (write_element (template_leaf t) [])) ts =
               map template_text ts)
    by (apply map_ext; intros t; apply (encoded_leaf "template" "name")).
  assert (Ef : map (fun f => encoded (write_element (file_leaf f) [])) fs =
               map file_text fs)
    by (apply map_ext; intros f; apply (encoded_leaf "file" "path")).
  rewrite Et in Ht. rewrite Ef in Hf.
  rewrite <- Ht, <- Hf. clear Ht Hf Et Ef.
  set (T := write_element (group (u "templates") _) _).
  set (F := write_element (group (u "files") _) _).
  unfold write_element, group, write_text.
  cbn [tag attrib text children tail truthy_opt flat_map orb length Nat.eqb
       negb concat].
  rewrite !app_nil_r.
  rewrite !encoded_app, !encoded_literal.
  change (encoded []) with (@nil N). rewrite <- !app_assoc. reflexivity.
Qed.

Lemma render_document ts fs : render ts fs = Some (document_text ts fs).
Proof.
  unfold render. rewrite build_prompt_store. unfold tostring.
  change recursion_limit with (3 + 997)%nat.
  rewrite serialize_prompt_store. simpl.
  f_equal. apply encoded_raw_document.
Qed.
End RenderFacts.

Module ResolveFacts.
Import Py ET Rp Spec.

Lemma copy_or_empty_id {A} (xs : list A) : copy_or_empty xs = xs.
Proof. by destruct xs. Qed.

Lemma collect_lines (lines : list str) (file_paths : list str) :
  fold_left
    (fun file_paths line =>
       let line := strip line in
       if truthy line then file_paths ++ [line] else file_paths)
    lines file_paths
  = file_paths ++ List.filter truthy (map strip lines).
Proof.
  revert file_paths. induction lines as [|line lines IH]; intros fp; simpl.
  - by rewrite app_nil_r.
  - rewrite IH. destruct (truthy (strip line)); [|done].
    by rewrite <- app_assoc.
Qed.

Lemma isfile_truthy fs p : isfile fs p = true -> truthy p = true.
Proof. unfold isfile. by intros [? _]%andb_true_iff. Qed.

Lemma read_list_ok args fs l list_content file_paths :
  list_ args = Some l -> isfile fs l = true ->
  read_file_content fs l = Decoded list_content ->
  read_list args fs file_paths = Continue (file_paths ++ listed_paths list_content).
Proof.
  intros Hl Hf Hc. unfold read_list. rewrite Hl, (isfile_truthy _ _ Hf), Hf, Hc.
  simpl. by rewrite collect_lines.
Qed.

Lemma read_list_absent args fs file_paths :
  truthy_opt (list_ args) = false ->
  read_list args fs file_paths = Continue file_paths.
Proof.
  unfold read_list. destruct (list_ args) as [l|]; [|done].
  simpl. by intros ->.
Qed.

Lemma readable_true fs p :
  readable fs p = true ->
  isfile fs p = true /\ read_file_content fs p = Decoded (entry fs p).2.
Proof.
  unfold readable, entry. intros [Hf Hc]%andb_true_iff. split; [done|].
  by destruct (read_file_content fs p).
Qed.

Lemma unreadable_true fs p :
  unreadable fs p = true ->
  isfile fs p = false \/
  (isfile fs p = true /\ read_file_content fs p = IOError).
Proof.
  unfold unreadable. destruct (isfile fs p); simpl; [|by left].
  destruct (read_file_content fs p); [done|by right|done].
Qed.

Lemma undecodable_true fs p :
  undecodable fs p = true ->
  isfile fs p = true /\ read_file_content fs p = UnicodeDecodeError.
Proof.
  unfold undecodable. intros [Hf Hc]%andb_true_iff. split; [done|].
  by destruct (read_file_content fs p).
Qed.

(** A path is read as text, or answered with a diagnostic, or its read
    ends in [UnicodeDecodeError]: one of the three and no two of them. *)
Lemma read_cases fs p :
  (readable fs p = true /\ unreadable fs p = false /\ undecodable fs p = false) \/
  (readable fs p = false /\ unreadable fs p = true /\ undecodable fs p = false) \/
  (readable fs p = false /\ unreadable fs p = false /\ undecodable fs p = true).
Proof.
  unfold readable, unreadable, undecodable.
  destruct (isfile fs p); cbn [negb andb orb]; [|by right; left].
  destruct (read_file_content fs p); [by left|by right; left|by right; right].
Qed.

Lemma readable_false fs p :
  readable fs p = false -> unreadable fs p = true \/ undecodable fs p = true.
Proof.
  intros H. destruct (read_cases fs p) as [(? & _)|[(_ & ? & _)|(_ & _ & ?)]];
    [congruence|by left|by right].
Qed.

Lemma unreadable_not_readable fs p : unreadable fs p = true -> readable fs p = false.
Proof.
  intros H. destruct (read_cases fs p) as [(_ & ? & _)|[(? & _)|(? & _)]];
    [congruence|done..].
Qed.

Lemma undecodable_not_readable fs p : undecodable fs p = true -> readable fs p = false.
Proof.
  intros H. destruct (read_cases fs p) as [(_ & _ & ?)|[(? & _)|(? & _)]];
    [congruence|done..].
Qed.

(** A list of paths is read throughout, or it has a first path that is
    not. *)
Lemma first_unread fs (paths : list str) :
  Forall (fun p => readable fs p = true) paths \/
  exists pre p post,
    paths = pre ++ p :: post /\
    Forall (fun p => readable fs p = true) pre /\ readable fs p = false.
Proof.
  induction paths as [|p paths IH]; [by left|].
  destruct (readable fs p) eqn:Hp.
  - destruct IH as [IH|(pre & q & post & -> & Hpre & Hq)].
    + left. by constructor.
    + right. exists (p :: pre), q, post. repeat split; [|done]. by constructor.
  - right. exists [], p, paths. by repeat split.
Qed.

Lemma read_templates_ok args fs paths templates :
  Forall (fun p => readable fs p = true) paths ->
  read_templates args fs paths templates =
  Continue (templates ++ map (entry fs) paths).
Proof.
  intros H. revert templates.
  induction H as [|p paths [Hf Hc]%readable_true _ IH]; intros templates; simpl.
  - by rewrite app_nil_r.
  - rewrite Hf, Hc. simpl. rewrite IH, <- app_assoc. reflexivity.
Qed.

Lemma read_templates_stop args fs pre p post templates :
  Forall (fun p => readable fs p = true) pre -> unreadable fs p = true ->
  read_templates args fs (pre ++ p :: post) templates =
  Return 1 (eprint args (template_error fs p)).
Proof.
  intros H Hp. revert templates.
  induction H as [|q pre [Hf Hc]%readable_true _ IH]; intros templates; simpl.
  - unfold template_error.
    destruct (unreadable_true _ _ Hp) as [Hf|[Hf Hc]]; rewrite Hf; simpl; [done|].
    by rewrite Hc.
  - rewrite Hf, Hc. simpl. apply IH.
Qed.

Lemma read_templates_raise args fs pre p post templates :
  Forall (fun p => readable fs p = true) pre -> undecodable fs p = true ->
  read_templates args fs (pre ++ p :: post) templates = Raise.
Proof.
  intros H [Hf Hc]%undecodable_true. revert templates.
  induction H as [|q pre [Hqf Hqc]%readable_true _ IH]; intros templates; simpl.
  - by rewrite Hf, Hc.
  - rewrite Hqf, Hqc. simpl. apply IH.
Qed.

Lemma read_files_ok args fs paths files_data :
  Forall (fun p => readable fs p = true) paths ->
  read_files args fs paths files_data =
  Continue (files_data ++ map (entry fs) paths).
Proof.
  intros H. revert files_data.
  induction H as [|p paths [Hf Hc]%readable_true _ IH]; intros files_data; simpl.
  - by rewrite app_nil_r.
  - rewrite Hf, Hc. simpl. rewrite IH, <- app_assoc. reflexivity.
Qed.

Lemma read_files_stop args fs pre p post files_data :
  Forall (fun p => readable fs p = true) pre -> unreadable fs p = true ->
  read_files args fs (pre ++ p :: post) files_data =
  Return 1 (eprint args (file_error fs p)).
Proof.
  intros H Hp. revert files_data.
  induction H as [|q pre [Hf Hc]%readable_true _ IH]; intros files_data; simpl.
  - unfold file_error.
    destruct (unreadable_true _ _ Hp) as [Hf|[Hf Hc]]; rewrite Hf; simpl; [done|].
    by rewrite Hc.
  - rewrite Hf, Hc. simpl. apply IH.
Qed.

Lemma read_files_raise args fs pre p post files_data :
  Forall (fun p => readable fs p = true) pre -> undecodable fs p = true ->
  read_files args fs (pre ++ p :: post) files_data = Raise.
Proof.
  intros H [Hf Hc]%undecodable_true. revert files_data.
  induction H as [|q pre [Hqf Hqc]%readable_true _ IH]; intros files_data; simpl.
  - by rewrite Hf, Hc.
  - rewrite Hqf, Hqc. simpl. apply IH.
Qed.

Lemma add_inline_from idx inline_prompts templates :
  add_inline idx inline_prompts templates =
  templates ++
  imap (fun i p => (u "inline_prompt_" ++ str_of_int (N.of_nat (idx + i + 1)), p))
       inline_prompts.
Proof.
  revert idx templates.
  induction inline_prompts as [|p ps IH]; intros idx templates;
    cbn [add_inline imap].
  - by rewrite app_nil_r.
  - rewrite IH, <- app_assoc. cbn [app]. rewrite Nat.add_0_r. do 2 f_equal.
    apply imap_ext. intros i x _. unfold compose.
    by replace (S idx + i + 1)%nat with (idx + S i + 1)%nat by lia.
Qed.

Lemma add_inline_templates inline_prompts templates :
  add_inline 0 inline_prompts templates = templates ++ inline_templates inline_prompts.
Proof. apply add_inline_from. Qed.

End ResolveFacts.

Module MainFacts.
Import Py ET Rp Spec Aux ResolveFacts RenderFacts.

Lemma resolve_phases args fs :
  resolve args fs =
  (do file_paths <- read_list args fs (file args);
   do templates <- read_templates args fs (prompt args) [];
   do files_data <- read_files args fs file_paths [];
   Continue (or_default (add_inline 0 (additional_prompts args) templates),
             files_data)).
Proof. unfold resolve. by rewrite !copy_or_empty_id. Qed.

Lemma resolve_Continue args fs ts fds :
  resolve args fs = Continue (ts, fds) ->
  exists paths,
    read_list args fs (file args) = Continue paths /\
    Forall (fun p => readable fs p = true) (prompt args) /\
    Forall (fun p => readable fs p = true) paths /\
    ts = or_default (map (entry fs) (prompt args) ++
                     inline_templates (additional_prompts args)) /\
    fds = map (entry fs) paths.
Proof.
  rewrite resolve_phases.
  destruct (read_list args fs (file args)) as [paths| |] eqn:Hl; [|done..].
  cbn [and_then].
  destruct (first_unread fs (prompt args))
    as [Hp|(pre & p & post & Hpp & Hpre & [Hbad|Hbad]%readable_false)].
  2:{ rewrite Hpp, (read_templates_stop _ _ _ _ _ _ Hpre Hbad). done. }
  2:{ rewrite Hpp, (read_templates_raise _ _ _ _ _ _ Hpre Hbad). done. }
  rewrite (read_templates_ok _ _ _ _ Hp). cbn [and_then app].
  destruct (first_unread fs paths)
    as [Hf|(pre & p & post & Hpp & Hpre & [Hbad|Hbad]%readable_false)].
  2:{ rewrite Hpp, (read_files_stop _ _ _ _ _ _ Hpre Hbad). done. }
  2:{ rewrite Hpp, (read_files_raise _ _ _ _ _ _ Hpre Hbad). done. }
  rewrite (read_files_ok _ _ _ _ Hf). cbn [and_then app].
  rewrite add_inline_templates. intros [= <- <-]. by exists paths.
Qed.

Lemma resolve_ok args fs paths :
  read_list args fs (file args) = Continue paths ->
  Forall (fun p => readable fs p = true) (prompt args) ->
  Forall (fun p => readable fs p = true) paths ->
  resolve args fs =
  Continue (or_default (map (entry fs) (prompt args) ++
                        inline_templates (additional_prompts args)),
            map (entry fs) paths).
Proof.
  intros Hl Hp Hf. rewrite resolve_phases, Hl. cbn [and_then].
  rewrite (read_templates_ok _ _ _ _ Hp). cbn [and_then app].
  rewrite (read_files_ok _ _ _ _ Hf). cbn [and_then app].
  by rewrite add_inline_templates.
Qed.

Lemma main_outcome args fs :
  main args fs =
  match resolve args fs with
  | Continue (ts, fds) => Some (deliver args fs (document_text ts fds))
  | Return code err => Some (mkOutcome code [] err [])
  | Raise => None
  end.
Proof.
  unfold main. destruct (resolve args fs) as [[ts fds]|code err|]; [|done..].
  by rewrite render_document.
Qed.

(** [main] returns unless a read raises. *)
Lemma main_returns args fs :
  resolve args fs <> Raise -> exists o, main args fs = Some o.
Proof.
  rewrite main_outcome. destruct (resolve args fs) as [[ts fds]|code err|];
    [by eexists..|done].
Qed.

Lemma or_default_nonempty ts : or_default ts <> [].
Proof. by destruct ts. Qed.

End MainFacts.

Module SplitFacts.
Import Py Spec Aux.

Lemma split_from_runs cur s :
  length (split_from cur s) =
  (runs (negb (truthy cur)) s + (if truthy cur then 1 else 0))%nat.
Proof.
  revert cur. induction s as [|c s IH]; intros cur.
  - by destruct cur.
  - cbn [split_from runs]. destruct (isspace c) eqn:Hc.
    + destruct cur as [|x cur]; cbn [length truthy negb andb];
        rewrite (IH []); cbn [truthy negb]; lia.
    + rewrite (IH (c :: cur)). cbn [truthy negb andb].
      destruct cur; cbn [truthy negb andb]; lia.
Qed.

Lemma filter_length_shift (f : nat -> bool) (l : list nat) :
  length (List.filter f (map S l)) = length (List.filter (fun i => f (S i)) l).
Proof.
  induction l as [|x l IH]; [done|].
  cbn [map List.filter]. destruct (f (S x)); cbn [length]; by rewrite IH.
Qed.

Lemma count_after prev_ws s :
  length (List.filter (starts_run_after prev_ws s) (seq 0 (length s))) =
  runs prev_ws s.
Proof.
  revert prev_ws. induction s as [|c s IH]; intros prev_ws; [done|].
  cbn [length seq runs]. rewrite <- seq_shift.
  assert (H0 : starts_run_after prev_ws (c :: s) 0 = prev_ws && negb (isspace c))
    by apply andb_comm.
  assert (Hlen : length (List.filter (starts_run_after prev_ws (c :: s))
                           (map S (seq 0 (length s)))) = runs (isspace c) s).
  { rewrite filter_length_shift, <- IH. f_equal.
    apply List.filter_ext. intros [|j]; reflexivity. }
  cbn [List.filter]. rewrite H0.
  destruct (prev_ws && negb (isspace c)); cbn [length]; by rewrite Hlen.
Qed.

Lemma split_count_runs s : length (split s) = count_runs s.
Proof.
  unfold split, count_runs. rewrite split_from_runs. cbn [truthy negb].
  rewrite Nat.add_0_r. symmetry. apply (count_after true).
Qed.
End SplitFacts.

Module XmlFacts.
Import Py ET Spec Aux Xml EscapeFacts RenderFacts.

Example chardata_sample :
  chardata (u "a&amp;b&#x41;&#66;]]&gt;" ++ 13 :: 10 :: u "c</t>") =
  Some (u "a&bAB]]>" ++ 10 :: u "c", u "</t>").
Proof. vm_compute. reflexivity. Qed.

Lemma is_char_not_surrogate c : is_char c = true -> is_surrogate c = false.
Proof.
  unfold is_char, is_surrogate. intros H.
  apply andb_false_iff.
  repeat (apply orb_true_iff in H as [H|H]);
    repeat match goal with
    | H : _ && _ = true |- _ => apply andb_true_iff in H as [? ?]
    | H : (_ =? _) = true |- _ => apply N.eqb_eq in H
    | H : (_ <=? _) = true |- _ => apply N.leb_le in H
    end;
    rewrite ?N.leb_gt; lia.
Qed.

Lemma encoded_cons c s :
  is_surrogate c = false -> encoded (c :: s) = c :: encoded s.
Proof. intros H. unfold encoded. simpl. unfold xmlcharrefreplace at 1. by rewrite H. Qed.

Ltac neq_case c k :=
  destruct (N.eqb_spec c k) as [->|?].

Ltac use_neq :=
  repeat match goal with
  | H : ?c <> ?k |- context [?c =? ?k] => rewrite (proj2 (N.eqb_neq c k) H)
  end.

Lemma chardata_escaped b out text rest :
  Forall (fun c => is_char c = true /\ c <> 13) text ->
  chardata_from (Text b) out (encoded (flat_map cdata_char text) ++ 60 :: rest) =
  Some (rev out ++ text, 60 :: rest).
Proof.
  intros H. revert b out.
  induction H as [|c text [Hc H13] _ IH]; intros b out.
  - simpl. by rewrite app_nil_r.
  - cbn [flat_map]. rewrite encoded_app, <- app_assoc.
    replace (rev out ++ c :: text) with (rev (c :: out) ++ text)
      by (simpl; by rewrite <- app_assoc).
    unfold cdata_char.
    neq_case c 38; [exact (IH 0%nat (38 :: out))|].
    neq_case c 60; [exact (IH 0%nat (60 :: out))|].
    neq_case c 62; [exact (IH 0%nat (62 :: out))|].
    rewrite (encoded_cons c []) by by apply is_char_not_surrogate.
    cbn [encoded flat_map app chardata_from].
    use_neq. rewrite Hc. cbn [negb andb]. apply IH.
Qed.

Lemma attvalue_escaped out value rest :
  Forall (fun c => is_char c = true) value ->
  attvalue_from None out (encoded (flat_map attrib_char value) ++ 34 :: rest) =
  Some (rev out ++ value, rest).
Proof.
  intros H. revert out.
  induction H as [|c value Hc _ IH]; intros out.
  - simpl. by rewrite app_nil_r.
  - cbn [flat_map]. rewrite encoded_app, <- app_assoc.
    replace (rev out ++ c :: value) with (rev (c :: out) ++ value)
      by (simpl; by rewrite <- app_assoc).
    unfold attrib_char.
    neq_case c 38; [exact (IH (38 :: out))|].
    neq_case c 60; [exact (IH (60 :: out))|].
    neq_case c 62; [exact (IH (62 :: out))|].
    neq_case c 34; [exact (IH (34 :: out))|].
    neq_case c 13; [exact (IH (13 :: out))|].
    neq_case c 10; [exact (IH (10 :: out))|].
    neq_case c 9; [exact (IH (9 :: out))|].
    rewrite (encoded_cons c []) by by apply is_char_not_surrogate.
    cbn [encoded flat_map app attvalue_from].
    use_neq. rewrite Hc. cbn [negb orb]. apply IH.
Qed.

Lemma chardata_roundtrip text rest :
  Forall (fun c => is_char c = true /\ c <> 13) text ->
  chardata (encoded (_escape_cdata text) ++ 60 :: rest) = Some (text, 60 :: rest).
Proof.
  intros H. rewrite _escape_cdata_chars. by apply (chardata_escaped 0 []).
Qed.

Lemma attvalue_roundtrip value rest :
  Forall (fun c => is_char c = true) value ->
  attvalue (encoded (_escape_attrib value) ++ 34 :: rest) = Some (value, rest).
Proof.
  intros H. rewrite _escape_attrib_chars. by apply (attvalue_escaped []).
Qed.
End XmlFacts.

Module XmlDocFacts.
Import Py ET Spec Aux Xml EscapeFacts RenderFacts XmlFacts.

Lemma strip_prefix_app p s : strip_prefix p (p ++ s) = Some s.
Proof.
  induction p as [|a p IH]; [done|]. simpl. by rewrite N.eqb_refl.
Qed.

Lemma strip_prefix_differ p a b q s :
  a <> b -> strip_prefix (p ++ a :: q) (p ++ b :: s) = None.
Proof.
  intros Hab. induction p as [|c p IH]; simpl.
  - by rewrite (proj2 (N.eqb_neq a b) Hab).
  - by rewrite N.eqb_refl.
Qed.

Lemma strip_prefix_app2 p q s :
  strip_prefix (p ++ q) (p ++ s) = strip_prefix q s.
Proof.
  induction p as [|a p IH]; [done|]. simpl. by rewrite N.eqb_refl.
Qed.

Lemma chardata_before_end_tag text rest :
  legal_text text ->
  chardata (encoded (_escape_cdata text) ++ u "</" ++ rest) =
  Some (text, u "</" ++ rest).
Proof. intros H. exact (chardata_roundtrip text (u "/" ++ rest) H). Qed.

Ltac peel :=
  repeat rewrite <- app_assoc;
  repeat rewrite strip_prefix_app2;
  rewrite strip_prefix_app;
  cbn [mbind option_bind].

Lemma leaf_roundtrip tg key value txt rest :
  legal_value value -> legal_text txt ->
  read_leaf (u tg) (u key) (leaf_text (u tg) (u key) value txt ++ rest) =
  Some ((value, txt), rest).
Proof.
  intros Hv Ht. unfold read_leaf, leaf_text. peel.
  change ([34] ++ ?x) with (34 :: x).
  rewrite (attvalue_roundtrip value _ Hv). cbn [mbind option_bind].
  destruct txt as [|c txt]; cbn [truthy].
  - by peel.
  - repeat rewrite <- app_assoc.
    change (strip_prefix (u " />") (u ">" ++ ?x)) with (@None str).
    peel.
    rewrite (chardata_before_end_tag (c :: txt) _ Ht). cbn [mbind option_bind].
    by peel.
Qed.

Lemma leaves_roundtrip fuel tg key (xs : list (str * str)) rest :
  (forall r, strip_prefix (u "</") (u "<" ++ u tg ++ r) = None) ->
  Forall legal_entry xs -> (length xs < fuel)%nat ->
  read_leaves fuel (u tg) (u key)
    (concat (map (fun x => leaf_text (u tg) (u key) x.1 x.2) xs) ++ u "</" ++ rest) =
  Some (xs, u "</" ++ rest).
Proof.
  intros Htg Hxs. revert fuel.
  induction Hxs as [|[value txt] xs [Hv Ht] _ IH]; intros fuel Hfuel;
    (destruct fuel as [|fuel]; [cbn [length] in Hfuel; lia|]).
  - cbn [map concat app read_leaves]. by rewrite strip_prefix_app.
  - cbn [map concat read_leaves fst snd]. rewrite <- app_assoc.
    assert (Hstart : strip_prefix (u "</")
              (leaf_text (u tg) (u key) value txt ++
               concat (map (fun x => leaf_text (u tg) (u key) x.1 x.2) xs) ++
               u "</" ++ rest) = None).
    { unfold leaf_text. repeat rewrite <- app_assoc. apply Htg. }
    rewrite Hstart.
    rewrite (leaf_roundtrip tg key value txt _ Hv Ht). cbn [mbind option_bind].
    rewrite IH by (cbn [length] in Hfuel; lia). reflexivity.
Qed.

Lemma group_roundtrip fuel gt tg key (xs : list (str * str)) rest :
  (forall r, strip_prefix (u "</") (u "<" ++ u tg ++ r) = None) ->
  Forall legal_entry xs -> (length xs < fuel)%nat ->
  read_group fuel (u gt) (u tg) (u key)
    (group_text (u gt) (map (fun x => leaf_text (u tg) (u key) x.1 x.2) xs) ++ rest) =
  Some (xs, rest).
Proof.
  intros Htg Hxs Hfuel. unfold read_group.
  destruct xs as [|x xs].
  - unfold group_text. cbn [map]. by peel.
  - set (ys := x :: xs) in *.
    assert (E : group_text (u gt)
                  (map (fun x => leaf_text (u tg) (u key) x.1 x.2) ys) =
                u "<" ++ u gt ++ u ">" ++
                concat (map (fun x => leaf_text (u tg) (u key) x.1 x.2) ys) ++
                u "</" ++ u gt ++ u ">") by reflexivity.
    rewrite E. clear E.
    repeat rewrite <- app_assoc.
    rewrite (app_assoc (u "<") (u gt) (u " />")).
    rewrite (app_assoc (u "<") (u gt) (u ">" ++ _)).
    change (u " />") with (32 :: u "/>"). change (u ">" ++ ?x) with (62 :: x).
    rewrite strip_prefix_differ by done.
    change (62 :: ?x) with (u ">" ++ x).
    rewrite <- app_assoc. peel.
    rewrite (leaves_roundtrip fuel tg key ys _ Htg Hxs Hfuel).
    cbn [mbind option_bind]. by peel.
Qed.

Lemma leaves_length tg key (xs : list (str * str)) :
  (length xs <=
   length (concat (map (fun x => leaf_text (u tg) (u key) x.1 x.2) xs)))%nat.
Proof.
  induction xs as [|x xs IH]; [done|].
  cbn [map concat length]. rewrite length_app.
  unfold leaf_text at 1. rewrite length_app.
  change (length (u "<")) with 1%nat. lia.
Qed.

Lemma group_text_length gt tg key (xs : list (str * str)) :
  (length xs <=
   length (group_text (u gt) (map (fun x => leaf_text (u tg) (u key) x.1 x.2) xs)))%nat.
Proof.
  pose proof (leaves_length tg key xs) as H.
  destruct xs as [|x xs]; [cbn [length]; lia|].
  unfold group_text. cbn [map] in *. rewrite !length_app. lia.
Qed.

Lemma document_roundtrip (ts fds : list (str * str)) :
  Forall (fun t => legal_value (basename t.1) /\ legal_text t.2) ts ->
  Forall legal_entry fds ->
  read_document (document_text ts fds) =
  Some (map (fun t => (basename t.1, t.2)) ts, fds).
Proof.
  intros Hts Hfds.
  pose proof (group_text_length "templates" "template" "name"
                (map (fun t => (basename t.1, t.2)) ts)) as Lt.
  pose proof (group_text_length "files" "file" "path" fds) as Lf.
  rewrite map_map, length_map in Lt. cbn [fst snd] in Lt.
  assert (Hlen : (length ts < length (document_text ts fds) /\
                  length fds < length (document_text ts fds))%nat).
  { unfold document_text. rewrite !length_app.
    change (length (u "<prompt>")) with 8%nat.
    unfold template_text, file_text. lia. }
  destruct Hlen as [Ht Hf].
  unfold read_document. set (fuel := length (document_text ts fds)) in *.
  unfold document_text. peel.
  unfold template_text.
  rewrite <- (map_map (fun t => (basename t.1, t.2))
                (fun x => leaf_text (u "template") (u "name") x.1 x.2)).
  rewrite (group_roundtrip fuel "templates" "template" "name").
  2:{ intros r. reflexivity. }
  2:{ apply Forall_map. exact Hts. }
  2:{ by rewrite length_map. }
  cbn [mbind option_bind].
  unfold file_text.
  rewrite (group_roundtrip fuel "files" "file" "path" fds); [|done..].
  cbn [mbind option_bind]. rewrite <- (app_nil_r (u "</prompt>")) at 2.
  by rewrite strip_prefix_app.
Qed.

Lemma legal_value_test value : legal_valueb value = true -> legal_value value.
Proof.
  unfold legal_valueb, legal_value. rewrite forallb_forall, Forall_forall. auto.
Qed.

Lemma legal_text_test txt : legal_textb txt = true -> legal_text txt.
Proof.
  unfold legal_textb, legal_text. rewrite forallb_forall, Forall_forall.
  intros H c Hc. specialize (H c Hc).
  apply andb_true_iff in H as [H1 H2]. split; [done|].
  apply negb_true_iff, N.eqb_neq in H2. done.
Qed.

Lemma legal_entries_test (xs : list (str * str)) :
  forallb legal_entryb xs = true -> Forall legal_entry xs.
Proof.
  rewrite forallb_forall, Forall_forall. intros H x Hx.
  specialize (H x Hx). apply andb_true_iff in H as [H1 H2].
  split; [by apply legal_value_test|by apply legal_text_test].
Qed.

End XmlDocFacts.

(** ** The tests of the source, run on the model *)

Module SourceTests.
Import Py Rp Spec Examples.

Example test_single_prompt_template :
  passes (run (mkArgs [u "template.txt"] [] None None false [])
              (mocked (u "Sample template content")))
    0
    [u "<templates>";
     u "<template name=" ++ [34] ++ u "template.txt" ++ [34] ++
       u ">Sample template content</template>";
     u "<files />"]
    [u "Success: Prompt generated with"] = true.
Proof. vm_compute. reflexivity. Qed.

Example test_single_file :
  passes (run (mkArgs [] [u "somefile.py"] None None false [])
              (mocked (u "file content")))
    0
    [u "<template name=" ++ [34] ++ u "default" ++ [34] ++
       u ">Please analyze the provided files and summarize their purpose and functionality.</template>";
     u "<file path=" ++ [34] ++ u "somefile.py" ++ [34] ++ u ">file content</file>"]
    [u "Success: Prompt generated with"] = true.
Proof. vm_compute. reflexivity. Qed.

Example test_missing_file :
  run (mkArgs [] [u "missingfile.txt"] None None false [])
      (mkFS (fun _ => false) (fun _ => IOError) (fun _ => true)) =
  Some (1%Z, [],
        u "Error: File 'missingfile.txt' does not exist or is not accessible." ++ [10]).
Proof. vm_compute. reflexivity. Qed.

Example test_list_file :
  passes (run (mkArgs [] [] (Some (u "list.txt")) None false [])
              (disk [(u "list.txt", u "file1.py" ++ [10] ++ u "file2.md");
                     (u "file1.py", u "print('hello world')");
                     (u "file2.md", u "# Some markdown content")]))
    0
    [u "<file path=" ++ [34] ++ u "file1.py" ++ [34] ++ u ">print('hello world')</file>";
     u "<file path=" ++ [34] ++ u "file2.md" ++ [34] ++ u "># Some markdown content</file>"]
    [u "Success: Prompt generated with"] = true.
Proof. vm_compute. reflexivity. Qed.

Example test_silent_mode :
  match run (mkArgs [] [u "code.py"] None None true []) (mocked (u "fake content")) with
  | Some (code, out, err) =>
      code = 0%Z /\ err = [] /\
      occurs_in (u "<file path=" ++ [34] ++ u "code.py" ++ [34] ++
                 u ">fake content</file>") out = true
  | None => False
  end.
Proof. vm_compute. repeat split. Qed.

Example test_inline_prompt :
  passes (run (mkArgs [] [] None None false
                 [u "This"; u "is"; u "an"; u "inline"; u "prompt"])
              (mocked (u "irrelevant")))
    0
    [u "<template name=" ++ [34] ++ u "inline_prompt_1" ++ [34] ++ u ">This</template>";
     u "<template name=" ++ [34] ++ u "inline_prompt_2" ++ [34] ++ u ">is</template>";
     u "<template name=" ++ [34] ++ u "inline_prompt_3" ++ [34] ++ u ">an</template>";
     u "<template name=" ++ [34] ++ u "inline_prompt_4" ++ [34] ++ u ">inline</template>";
     u "<template name=" ++ [34] ++ u "inline_prompt_5" ++ [34] ++ u ">prompt</template>"]
    [u "Success: Prompt generated with"] = true.
Proof. vm_compute. reflexivity. Qed.

(** A path listed twice, and once more by [-f], is read three times. *)
Example duplicates_are_kept :
  resolve (mkArgs [] [u "A"] (Some (u "list.txt")) None false [])
          (disk [(u "A", u "alpha"); (u "list.txt", u " A " ++ [10; 10] ++ u "A")]) =
  Continue ([default_template],
            [(u "A", u "alpha"); (u "A", u "alpha"); (u "A", u "alpha")]).
Proof. vm_compute. reflexivity. Qed.

End SourceTests.

Module FlowFacts.
Import Py ET Rp Spec Aux ResolveFacts MainFacts.

(** *** Silent mode *)

Lemma eprint_silent args msg : silent args = true -> eprint args msg = [].
Proof. unfold eprint. by intros ->. Qed.

Lemma eprint_loud args msg : silent args = false -> eprint args msg = msg ++ [10].
Proof. unfold eprint. by intros ->. Qed.

Lemma eprint_with_silent args msg : eprint (with_silent true args) msg = [].
Proof. reflexivity. Qed.





Lemma with_silent_same args : with_silent (silent args) args = args.
Proof. by destruct args. Qed.

(** *** Exit codes *)

Lemma read_list_code args fs file_paths code err :
  read_list args fs file_paths = Return code err -> code = 1%Z.
Proof.
  unfold read_list. destruct (list_ args) as [l|]; [|done].
  destruct (truthy l); [|done].
  destruct (isfile fs l); cbn [negb]; [|by intros [= <- _]].
  destruct (read_file_content fs l); [done|by intros [= <- _]|done].
Qed.

Lemma read_templates_code args fs paths templates code err :
  read_templates args fs paths templates = Return code err -> code = 1%Z.
Proof.
  revert templates. induction paths as [|p paths IH]; intros templates; [done|].
  cbn [read_templates]. destruct (isfile fs p); cbn [negb]; [|by intros [= <- _]].
  destruct (read_file_content fs p); [apply IH|by intros [= <- _]|done].
Qed.

Lemma read_files_code args fs paths files_data code err :
  read_files args fs paths files_data = Return code err -> code = 1%Z.
Proof.
  revert files_data. induction paths as [|p paths IH]; intros files_data; [done|].
  cbn [read_files]. destruct (isfile fs p); cbn [negb]; [|by intros [= <- _]].
  destruct (read_file_content fs p); [apply IH|by intros [= <- _]|done].
Qed.

Lemma resolve_code args fs code err :
  resolve args fs = Return code err -> code = 1%Z.
Proof.
  rewrite resolve_phases.
  destruct (read_list args fs (file args)) as [paths| |] eqn:Hl;
    [|intros [= <- _]; by eapply read_list_code|done].
  cbn [and_then].
  destruct (read_templates args fs (prompt args) []) as [templates| |] eqn:Ht;
    [|intros [= <- _]; by eapply read_templates_code|done].
  cbn [and_then].
  destruct (read_files args fs paths []) as [files_data| |] eqn:Hf;
    [done|intros [= <- _]; by eapply read_files_code|done].
Qed.

(** *** Dependence on the file system *)

Lemma agree_isfile fs1 fs2 p : agree fs1 fs2 p -> isfile fs1 p = isfile fs2 p.
Proof. intros [H _]. unfold isfile. by rewrite H. Qed.

Lemma agree_read fs1 fs2 p :
  agree fs1 fs2 p -> read_file_content fs1 p = read_file_content fs2 p.
Proof. by intros [_ H]. Qed.

Lemma read_templates_agree args fs1 fs2 paths templates :
  (forall p, In p paths -> agree fs1 fs2 p) ->
  read_templates args fs1 paths templates = read_templates args fs2 paths templates.
Proof.
  revert templates. induction paths as [|p paths IH]; intros templates H; [done|].
  cbn [read_templates].
  rewrite <- (agree_isfile fs1 fs2 p), <- (agree_read fs1 fs2 p)
    by (apply H; by left).
  destruct (isfile fs1 p); [|done]. cbn [negb].
  destruct (read_file_content fs1 p); [|done..].
  apply IH. intros q Hq. apply H. by right.
Qed.

Lemma read_files_agree args fs1 fs2 paths files_data :
  (forall p, In p paths -> agree fs1 fs2 p) ->
  read_files args fs1 paths files_data = read_files args fs2 paths files_data.
Proof.
  revert files_data. induction paths as [|p paths IH]; intros files_data H; [done|].
  cbn [read_files].
  rewrite <- (agree_isfile fs1 fs2 p), <- (agree_read fs1 fs2 p)
    by (apply H; by left).
  destruct (isfile fs1 p); [|done]. cbn [negb].
  destruct (read_file_content fs1 p); [|done..].
  apply IH. intros q Hq. apply H. by right.
Qed.

Lemma read_list_agree args fs1 fs2 file_paths :
  (forall l, list_ args = Some l -> agree fs1 fs2 l) ->
  read_list args fs1 file_paths = read_list args fs2 file_paths.
Proof.
  intros H. unfold read_list. destruct (list_ args) as [l|]; [|done].
  by rewrite <- (agree_isfile fs1 fs2 l), <- (agree_read fs1 fs2 l) by by apply H.
Qed.

Lemma read_list_paths args fs file_paths paths :
  read_list args fs file_paths = Continue paths ->
  forall p, In p paths -> In p (referenced args fs ++ file_paths).
Proof.
  unfold read_list, referenced.
  destruct (list_ args) as [l|]; [|intros [= <-] p Hp; apply in_or_app; by right].
  destruct (truthy l); [|intros [= <-] p Hp; apply in_or_app; by right].
  destruct (isfile fs l); [|done]. cbn [negb].
  destruct (read_file_content fs l) as [c| |]; [|done..].
  intros [= <-] p. rewrite collect_lines. fold (listed_paths c).
  rewrite !in_app_iff. cbn [In]. rewrite ?in_app_iff. tauto.
Qed.

Lemma resolve_agree args fs1 fs2 :
  (forall p, In p (referenced args fs1) -> agree fs1 fs2 p) ->
  resolve args fs1 = resolve args fs2.
Proof.
  intros H. rewrite !resolve_phases.
  rewrite <- (read_list_agree args fs1 fs2).
  2:{ intros l Hl. apply H. unfold referenced. rewrite Hl. by left. }
  destruct (read_list args fs1 (file args)) as [paths| |] eqn:Hl; [|done..].
  cbn [and_then].
  rewrite <- (read_templates_agree args fs1 fs2).
  2:{ intros p Hp. apply H. unfold referenced. rewrite !in_app_iff. tauto. }
  destruct (read_templates args fs1 (prompt args) []) as [templates| |]; [|done..].
  cbn [and_then].
  rewrite <- (read_files_agree args fs1 fs2); [done|].
  intros p Hp. apply H.
  pose proof (read_list_paths _ _ _ _ Hl p Hp) as Hin.
  apply in_app_iff in Hin as [Hin|Hin]; [done|].
  unfold referenced. rewrite !in_app_iff. tauto.
Qed.

End FlowFacts.

Module FailureFacts.
Import Py ET Rp Spec Aux ResolveFacts MainFacts.

Lemma eprint_cases args line :
  eprint args line = if silent args then [] else line ++ [10].
Proof. reflexivity. Qed.

Lemma read_list_named args fs paths :
  read_list args fs (file args) = Continue paths -> paths = named_files args fs.
Proof.
  unfold read_list, named_files.
  destruct (list_ args) as [l|]; [|intros [= <-]; by rewrite app_nil_r].
  destruct (truthy l) eqn:Hl.
  - destruct (isfile fs l); cbn [negb]; [|done].
    destruct (read_file_content fs l) as [c| |]; [|done..].
    intros [= <-]. apply collect_lines.
  - unfold isfile. rewrite Hl. cbn [andb]. intros [= <-]. by rewrite app_nil_r.
Qed.

Lemma read_list_Return args fs file_paths code err :
  read_list args fs file_paths = Return code err ->
  code = 1%Z /\
  exists line, err = eprint args line /\ starts_with (u "Error: ") line = true.
Proof.
  unfold read_list. destruct (list_ args) as [l|]; [|done].
  destruct (truthy l); [|done].
  destruct (isfile fs l); cbn [negb].
  - destruct (read_file_content fs l); [done| |done].
    intros [= <- <-]. split; [done|]. by eexists.
  - intros [= <- <-]. split; [done|]. by eexists.
Qed.

Lemma template_error_line fs p : starts_with (u "Error: ") (template_error fs p) = true.
Proof. unfold template_error. by destruct (negb (isfile fs p)). Qed.

Lemma file_error_line fs p : starts_with (u "Error: ") (file_error fs p) = true.
Proof. unfold file_error. by destruct (negb (isfile fs p)). Qed.

Lemma file_error_names fs p :
  file_error fs p = u "Error: File '" ++ p ++ u "' does not exist or is not accessible."
  \/ file_error fs p = u "Error: Could not read file '" ++ p ++ u "'.".
Proof. unfold file_error. destruct (negb (isfile fs p)); [by left|by right]. Qed.

Lemma Forall_first_unique fs (pre pre' : list str) q q' post post' :
  pre ++ q :: post = pre' ++ q' :: post' ->
  Forall (fun p => readable fs p = true) pre -> readable fs q = false ->
  Forall (fun p => readable fs p = true) pre' -> readable fs q' = false ->
  pre = pre' /\ q = q'.
Proof.
  revert pre'. induction pre as [|a pre IH]; intros [|b pre'] E Hpre Hq Hpre' Hq';
    cbn [app] in E; injection E as <- E.
  - done.
  - apply Forall_inv in Hpre'. congruence.
  - apply Forall_inv in Hpre. congruence.
  - apply Forall_inv_tail in Hpre. apply Forall_inv_tail in Hpre'.
    destruct (IH pre' E Hpre Hq Hpre' Hq') as [-> ->]. done.
Qed.

End FailureFacts.

Module CaseFacts.
Import Py ET Rp Spec Aux ResolveFacts MainFacts FlowFacts FailureFacts.


(** *** The list file *)

Lemma read_list_stop args fs l file_paths :
  list_ args = Some l -> truthy l = true -> unreadable fs l = true ->
  read_list args fs file_paths = Return 1 (eprint args (list_error fs l)).
Proof.
  intros Hl Ht Hbad. unfold read_list, list_error. rewrite Hl, Ht.
  destruct (unreadable_true _ _ Hbad) as [Hf|[Hf Hc]]; rewrite Hf; cbn [negb];
    [done|by rewrite Hc].
Qed.

Lemma read_list_raise args fs l file_paths :
  list_ args = Some l -> truthy l = true -> undecodable fs l = true ->
  read_list args fs file_paths = Raise.
Proof.
  intros Hl Ht [Hf Hc]%undecodable_true. unfold read_list.
  by rewrite Hl, Ht, Hf, Hc.
Qed.

Lemma list_error_line fs l : starts_with (u "Error: ") (list_error fs l) = true.
Proof. unfold list_error. by destruct (negb (isfile fs l)). Qed.

Lemma list_readable_spec args fs :
  list_readable args fs = true ->
  read_list args fs (file args) = Continue (named_files args fs).
Proof.
  unfold list_readable, read_list, named_files.
  destruct (list_ args) as [l|] eqn:Hl; [|by rewrite app_nil_r].
  destruct (truthy l) eqn:Ht; cbn [negb orb].
  - intros [Hf Hc]%readable_true. rewrite Hf, Hc. cbn [negb].
    by rewrite collect_lines.
  - intros _. unfold isfile. rewrite Ht. cbn [andb]. by rewrite app_nil_r.
Qed.

Lemma list_unreadable_spec args fs :
  list_readable args fs = false ->
  exists l, list_ args = Some l /\ truthy l = true /\ readable fs l = false.
Proof.
  unfold list_readable. destruct (list_ args) as [l|]; [|done].
  destruct (truthy l) eqn:Ht, (readable fs l) eqn:Hbad; try done. by exists l.
Qed.

(** *** The first input that is not read *)

Lemma find_unread_skip fs pre rest :
  Forall (fun p => readable fs p = true) pre ->
  List.find (fun path => negb (readable fs path)) (pre ++ rest) =
  List.find (fun path => negb (readable fs path)) rest.
Proof.
  induction 1 as [|p pre Hp _ IH]; [done|].
  cbn [app List.find]. by rewrite Hp.
Qed.

Lemma find_unread_none fs paths :
  Forall (fun p => readable fs p = true) paths ->
  List.find (fun path => negb (readable fs path)) paths = None.
Proof.
  intros H. rewrite <- (app_nil_r paths). by rewrite find_unread_skip.
Qed.

Lemma find_unread_first fs pre p post :
  Forall (fun p => readable fs p = true) pre -> readable fs p = false ->
  List.find (fun path => negb (readable fs path)) (pre ++ p :: post) = Some p.
Proof.
  intros Hpre Hp. rewrite find_unread_skip by done.
  cbn [List.find]. by rewrite Hp.
Qed.

Lemma list_readable_first args fs :
  list_readable args fs = true ->
  Forall (fun p => readable fs p = true)
    match list_ args with
    | Some l => if truthy l then [l] else []
    | None => []
    end.
Proof.
  unfold list_readable. destruct (list_ args) as [l|]; [|done].
  destruct (truthy l); cbn [negb orb]; [|done]. intros H. by constructor.
Qed.

(** A run by the first input that is not read as text: the list file, a
    template file, a file, or none. If that input is a file with bytes
    that are not valid UTF-8 the run ends in the exception, otherwise in
    the diagnostic for it. *)
Lemma resolve_cases args fs :
  (exists l,
     list_ args = Some l /\ truthy l = true /\ readable fs l = false /\
     raises args fs = undecodable fs l /\
     resolve args fs =
       if undecodable fs l then Raise
       else Return 1 (eprint args (list_error fs l))) \/
  (list_readable args fs = true /\
   exists pre p post,
     prompt args = pre ++ p :: post /\
     Forall (fun q => readable fs q = true) pre /\ readable fs p = false /\
     raises args fs = undecodable fs p /\
     resolve args fs =
       if undecodable fs p then Raise
       else Return 1 (eprint args (template_error fs p))) \/
  (list_readable args fs = true /\
   Forall (fun q => readable fs q = true) (prompt args) /\
   exists pre p post,
     named_files args fs = pre ++ p :: post /\
     Forall (fun q => readable fs q = true) pre /\ readable fs p = false /\
     raises args fs = undecodable fs p /\
     resolve args fs =
       if undecodable fs p then Raise
       else Return 1 (eprint args (file_error fs p))) \/
  (list_readable args fs = true /\
   Forall (fun q => readable fs q = true) (prompt args) /\
   Forall (fun q => readable fs q = true) (named_files args fs) /\
   raises args fs = false /\
   resolve args fs =
     Continue (or_default (map (entry fs) (prompt args) ++
                           inline_templates (additional_prompts args)),
               map (entry fs) (named_files args fs))).
Proof.
  destruct (list_readable args fs) eqn:Hlist.
  2:{ left. apply list_unreadable_spec in Hlist as (l & Hl & Ht & Hbad).
      exists l. repeat split; [done..| |].
      - unfold raises, inputs. rewrite Hl, Ht. cbn [app List.find].
        by rewrite Hbad.
      - rewrite resolve_phases.
        destruct (readable_false _ _ Hbad) as [Hio|Hdec].
        + destruct (read_cases fs l) as [(? & _)|[(_ & _ & ->)|(_ & ? & _)]];
            [congruence| |congruence].
          by rewrite (read_list_stop _ _ _ _ Hl Ht Hio).
        + rewrite Hdec. by rewrite (read_list_raise _ _ _ _ Hl Ht Hdec). }
  right.
  pose proof (list_readable_first _ _ Hlist) as Hfirst.
  destruct (first_unread fs (prompt args))
    as [Hts|(pre & p & post & Ets & Hpre & Hp)].
  2:{ left. split; [done|]. exists pre, p, post. repeat split; [done..| |].
      - unfold raises, inputs. rewrite Ets.
        rewrite find_unread_skip by done. rewrite <- app_assoc. cbn [app].
        by rewrite (find_unread_first _ _ _ _ Hpre Hp).
      - rewrite resolve_phases, (list_readable_spec _ _ Hlist), Ets.
        cbn [and_then].
        destruct (readable_false _ _ Hp) as [Hio|Hdec].
        + destruct (read_cases fs p) as [(? & _)|[(_ & _ & ->)|(_ & ? & _)]];
            [congruence| |congruence].
          by rewrite (read_templates_stop _ _ _ _ _ _ Hpre Hio).
        + rewrite Hdec. by rewrite (read_templates_raise _ _ _ _ _ _ Hpre Hdec). }
  right.
  destruct (first_unread fs (named_files args fs))
    as [Hfs|(pre & p & post & Efs & Hpre & Hp)].
  2:{ left. split; [done|]. split; [done|].
      exists pre, p, post. repeat split; [done..| |].
      - unfold raises, inputs. rewrite !find_unread_skip by done.
        rewrite Efs. by rewrite (find_unread_first _ _ _ _ Hpre Hp).
      - rewrite resolve_phases, (list_readable_spec _ _ Hlist).
        cbn [and_then]. rewrite (read_templates_ok _ _ _ _ Hts).
        cbn [and_then]. rewrite Efs.
        destruct (readable_false _ _ Hp) as [Hio|Hdec].
        + destruct (read_cases fs p) as [(? & _)|[(_ & _ & ->)|(_ & ? & _)]];
            [congruence| |congruence].
          by rewrite (read_files_stop _ _ _ _ _ _ Hpre Hio).
        + rewrite Hdec. by rewrite (read_files_raise _ _ _ _ _ _ Hpre Hdec). }
  right. repeat split; [done..| |].
  - unfold raises, inputs. rewrite !find_unread_skip by done.
    by rewrite find_unread_none.
  - by apply resolve_ok; [apply list_readable_spec|..].
Qed.

(** The run ends in the exception exactly when [raises] says so. *)
Lemma resolve_raises args fs : resolve args fs = Raise <-> raises args fs = true.
Proof.
  destruct (resolve_cases args fs)
    as [(l & _ & _ & _ & -> & ->)
       |[(_ & pre & p & post & _ & _ & _ & -> & ->)
        |[(_ & _ & pre & p & post & _ & _ & _ & -> & ->)
         |(_ & _ & _ & -> & ->)]]];
    try (by destruct (undecodable fs _)); done.
Qed.


Lemma resolve_not_raises args fs :
  raises args fs = false -> resolve args fs <> Raise.
Proof. intros H [=]%resolve_raises. congruence. Qed.

End CaseFacts.

Import Py ET Rp Spec Aux Xml Examples.
Import EscapeFacts StoreFacts BuildFacts SerializeFacts RenderFacts ResolveFacts
  MainFacts SplitFacts XmlFacts XmlDocFacts FlowFacts FailureFacts CaseFacts.

(** ** The claims *)

(** C1. When every input resolves, the text [main] renders is the root
    [prompt] node holding the [templates] node, with one [template] child
    per resolved template in order, followed by the [files] node, with one
    [file] child per resolved file in order. The [templates] node always
    holds children; a [files] node without children is written as the empty
    node [<files />] and not left out. This text is what [main] delivers. *)
Theorem document_structure args fs templates files_data :
  resolve args fs = Continue (templates, files_data) ->
  exists final_str,
    render templates files_data = Some final_str /\
    main args fs = Some (deliver args fs final_str) /\
    templates <> [] /\
    final_str =
      u "<prompt>" ++
      (u "<templates>" ++ concat (map template_text templates) ++ u "</templates>") ++
      match files_data with
      | [] => u "<files />"
      | _ :: _ => u "<files>" ++ concat (map file_text files_data) ++ u "</files>"
      end ++
      u "</prompt>".
Proof.
  intros Hres. exists (document_text templates files_data).
  split; [apply render_document|].
  split; [by rewrite main_outcome, Hres|].
  apply resolve_Continue in Hres as (paths & _ & _ & _ & Hts & _).
  assert (Hne : templates <> []) by (rewrite Hts; apply or_default_nonempty).
  split; [done|].
  unfold document_text, group_text.
  destruct templates as [|t ts]; [done|]. by destruct files_data.
Qed.

Lemma document_structure_witness :
  exists final_str,
    main args_abcd disk_abcd = Some (deliver args_abcd disk_abcd final_str) /\
    final_str =
      u "<prompt><templates>" ++ template_text default_template ++
      u "</templates><files>" ++
      file_text (u "A", u "alpha") ++ file_text (u "B", u "beta") ++
      file_text (u "C", u "gamma") ++ file_text (u "D", u "delta") ++
      u "</files></prompt>".
Proof.
  destruct (document_structure args_abcd disk_abcd
              [default_template]
              [(u "A", u "alpha"); (u "B", u "beta");
               (u "C", u "gamma"); (u "D", u "delta")])
    as (final_str & _ & Hmain & _ & Hshape).
  - vm_compute. reflexivity.
  - exists final_str. split; [exact Hmain|].
    rewrite Hshape. vm_compute. reflexivity.
Defined.

(** C2. With [--file] flags and a readable [--list] file, the files of the
    output are, in this order, the [--file] paths in flag order and then
    the non-blank lines of the list file, trimmed, in file order; every
    path has its own entry, duplicates included. *)
Theorem file_order args fs l list_content templates files_data :
  list_ args = Some l ->
  isfile fs l = true ->
  read_file_content fs l = Decoded list_content ->
  resolve args fs = Continue (templates, files_data) ->
  map fst files_data = file args ++ listed_paths list_content /\
  files_data = map (entry fs) (file args ++ listed_paths list_content) /\
  main args fs = Some (deliver args fs (document_text templates files_data)).
Proof.
  intros Hl Hfile Hread Hres.
  assert (Hmain : main args fs =
                  Some (deliver args fs (document_text templates files_data)))
    by (by rewrite main_outcome, Hres).
  apply resolve_Continue in Hres as (paths & Hpaths & _ & _ & _ & Hfds).
  rewrite (read_list_ok args fs l list_content _ Hl Hfile Hread) in Hpaths.
  injection Hpaths as <-. subst files_data.
  split; [|done].
  rewrite map_map. cbn [entry fst]. apply map_id.
Qed.

Lemma file_order_witness :
  exists templates files_data,
    resolve args_abcd disk_abcd = Continue (templates, files_data) /\
    map fst files_data = [u "A"; u "B"; u "C"; u "D"].
Proof.
  exists [default_template],
         [(u "A", u "alpha"); (u "B", u "beta"); (u "C", u "gamma"); (u "D", u "delta")].
  assert (Hres : resolve args_abcd disk_abcd =
                 Continue ([default_template],
                           [(u "A", u "alpha"); (u "B", u "beta");
                            (u "C", u "gamma"); (u "D", u "delta")]))
    by (vm_compute; reflexivity).
  split; [exact Hres|].
  destruct (file_order args_abcd disk_abcd (u "list.txt")
              (u "C" ++ [10] ++ u "D" ++ [10]) _ _
              eq_refl eq_refl eq_refl Hres) as [Horder _].
  rewrite Horder. vm_compute. reflexivity.
Defined.

(** C3. The template list that is serialized is never empty, and when no
    [-p] path and no positional prompt is given it is the single template
    named [default] with the fixed text. *)
Theorem default_template_only args fs templates files_data :
  resolve args fs = Continue (templates, files_data) ->
  templates <> [] /\
  (prompt args = [] -> additional_prompts args = [] ->
   templates =
     [(u "default",
       u "Please analyze the provided files and summarize their purpose and functionality.")]).
Proof.
  intros (paths & _ & _ & _ & -> & _)%resolve_Continue.
  split; [apply or_default_nonempty|].
  by intros -> ->.
Qed.

Lemma default_template_only_witness :
  exists templates files_data,
    resolve args_abcd disk_abcd = Continue (templates, files_data) /\
    templates =
      [(u "default",
        u "Please analyze the provided files and summarize their purpose and functionality.")].
Proof.
  assert (Hres : resolve args_abcd disk_abcd =
                 Continue ([default_template],
                           [(u "A", u "alpha"); (u "B", u "beta");
                            (u "C", u "gamma"); (u "D", u "delta")]))
    by (vm_compute; reflexivity).
  eexists _, _. split; [exact Hres|].
  exact (proj2 (default_template_only _ _ _ _ Hres) eq_refl eq_refl).
Defined.

(** C10. Every positional argument, the empty string included, gives its
    own template, named [inline_prompt_i] after its position counted from
    one and carrying the argument as text; the templates of the run are
    those of the [-p] files followed by these, and the default template
    stands in only when there is no [-p] path and no positional argument
    at all. *)
Theorem inline_prompts_kept args fs templates files_data :
  resolve args fs = Continue (templates, files_data) ->
  templates =
    (if Nat.eqb (length (prompt args) + length (additional_prompts args)) 0
     then [default_template]
     else map (entry fs) (prompt args) ++
          inline_templates (additional_prompts args)) /\
  (forall i p,
     additional_prompts args !! i = Some p ->
     templates !! (length (prompt args) + i)%nat =
     Some (u "inline_prompt_" ++ str_of_int (N.of_nat (i + 1)), p)).
Proof.
  intros (paths & _ & _ & _ & -> & _)%resolve_Continue.
  set (from_files := map (entry fs) (prompt args)).
  set (inline := inline_templates (additional_prompts args)).
  assert (Hlen : length (from_files ++ inline) =
                 (length (prompt args) + length (additional_prompts args))%nat).
  { unfold from_files, inline, inline_templates.
    by rewrite length_app, length_map, length_imap. }
  assert (Hdef : or_default (from_files ++ inline) =
                 if Nat.eqb (length (prompt args) + length (additional_prompts args)) 0
                 then [default_template] else from_files ++ inline).
  { rewrite <- Hlen. by destruct (from_files ++ inline). }
  split; [exact Hdef|].
  intros i p Hp. rewrite Hdef.
  destruct (Nat.eqb_spec (length (prompt args) + length (additional_prompts args)) 0)
    as [Hz|_].
  - apply lookup_lt_Some in Hp. lia.
  - rewrite lookup_app_r by (unfold from_files; rewrite length_map; lia).
    unfold from_files. rewrite length_map.
    replace (length (prompt args) + i - length (prompt args))%nat with i by lia.
    unfold inline, inline_templates. by rewrite list_lookup_imap, Hp.
Qed.

Lemma inline_prompts_kept_witness :
  exists templates files_data,
    resolve args_empty_prompt disk_abcd = Continue (templates, files_data) /\
    templates = [(u "inline_prompt_1", [])].
Proof.
  assert (Hres : resolve args_empty_prompt disk_abcd =
                 Continue ([(u "inline_prompt_1", [])], []))
    by (vm_compute; reflexivity).
  eexists _, _. split; [exact Hres|].
  destruct (inline_prompts_kept _ _ _ _ Hres) as [Hts _]. exact Hts.
Defined.




(** C7. A successful run without [-s], that is one whose inputs resolve
    and whose text can be delivered, ends with exit code 0 and reports the
    number of maximal runs of non-whitespace characters of the rendered
    text, markup included: the diagnostic stream receives exactly the
    success line with that number. *)
Theorem token_report args fs templates files_data :
  silent args = false ->
  resolve args fs = Continue (templates, files_data) ->
  deliverable args fs = true ->
  exists final o,
    render templates files_data = Some final /\
    main args fs = Some o /\
    exit_code o = 0%Z /\
    token_count final = N.of_nat (count_runs final) /\
    stderr o =
      u "Success: Prompt generated with " ++
      str_of_int (N.of_nat (count_runs final)) ++ u " tokens." ++ [10].
Proof.
  intros Hs Hres Hout. exists (document_text templates files_data).
  rewrite main_outcome, Hres. eexists.
  split; [apply render_document|]. split; [reflexivity|].
  assert (Hline : eprint args (success_line (document_text templates files_data)) =
                  u "Success: Prompt generated with " ++
                  str_of_int
                    (N.of_nat (count_runs (document_text templates files_data))) ++
                  u " tokens." ++ [10]).
  { rewrite (eprint_loud _ _ Hs). unfold success_line, token_count.
    rewrite split_count_runs. by repeat rewrite <- app_assoc. }
  split; [|split; [unfold token_count; by rewrite split_count_runs|]];
    revert Hout; unfold deliverable, deliver;
    (destruct (output args) as [out|]; [|done]);
    (destruct (truthy out); [|done]);
    by destruct (can_write fs out).
Qed.

Lemma token_report_witness :
  exists final,
    render [default_template]
      [(u "A", u "alpha"); (u "B", u "beta"); (u "C", u "gamma"); (u "D", u "delta")] =
      Some final /\
    main args_abcd disk_abcd =
      Some (mkOutcome 0 (final ++ [10])
              (u "Success: Prompt generated with 16 tokens." ++ [10]) []).
Proof.
  destruct (token_report args_abcd disk_abcd
              [default_template]
              [(u "A", u "alpha"); (u "B", u "beta");
               (u "C", u "gamma"); (u "D", u "delta")])
    as (final & o & Hfinal & Hmain & Hcode & Hcount & Herr).
  - reflexivity.
  - vm_compute. reflexivity.
  - reflexivity.
  - exists final. split; [exact Hfinal|].
    rewrite render_document in Hfinal. injection Hfinal as <-.
    rewrite Hmain. f_equal.
    rewrite main_outcome in Hmain. vm_compute in Hmain. injection Hmain as <-.
    vm_compute. reflexivity.
Defined.

(** C8. The rendered text depends on nothing but the arguments and what
    the file system shows at the paths the run refers to: two runs with the
    same arguments over file systems that agree on those paths render the
    same text and send the same bytes to standard output, or both end in
    the same exception. *)
Theorem deterministic_rendering args fs1 fs2 :
  (forall p, In p (referenced args fs1) -> agree fs1 fs2 p) ->
  final_str args fs1 = final_str args fs2 /\
  stdout <$> main args fs1 = stdout <$> main args fs2 /\
  (raises args fs1 = false ->
   exists o1 o2,
     main args fs1 = Some o1 /\ main args fs2 = Some o2 /\
     stdout o1 = stdout o2).
Proof.
  intros H. apply resolve_agree in H.
  assert (Hout : stdout <$> main args fs1 = stdout <$> main args fs2).
  { rewrite !main_outcome, H.
    destruct (resolve args fs2) as [[ts fds]|code err|]; [|done..].
    unfold deliver. cbn [fmap option_fmap option_map]. f_equal.
    destruct (output args) as [out|]; [|done].
    destruct (truthy out); [|done].
    by destruct (can_write fs1 out), (can_write fs2 out). }
  split; [unfold final_str; by rewrite H|]. split; [exact Hout|].
  intros Hraise. apply resolve_not_raises, main_returns in Hraise as [o1 Ho1].
  rewrite Ho1 in Hout. destruct (main args fs2) as [o2|]; [|done].
  injection Hout as Hout. by exists o1, o2.
Qed.

Lemma deterministic_rendering_witness :
  final_str args_abcd disk_abcd = final_str args_abcd disk_abcd_more.
Proof.
  refine (proj1 (deterministic_rendering args_abcd disk_abcd disk_abcd_more _)).
  intros p Hp. vm_compute in Hp.
  repeat (destruct Hp as [<-|Hp]; [vm_compute; split; reflexivity|]).
  destruct Hp.
Defined.

(** C5, as the program has it. When a file path named by [-f] or by a
    readable list file does not exist or cannot be read, and no read ends
    in [UnicodeDecodeError], the run ends with exit code 1, sends nothing
    to standard output, writes no output file and sends exactly one
    [Error:] line to the diagnostic stream, none when silent. Resolution
    stops at the first input that fails, in the order list file, template
    files, files, and the line names that input: the list file if it
    fails, else the first template file that fails, else the first file
    path that fails. *)
Theorem unreadable_file_stops_run args fs p :
  In p (named_files args fs) ->
  unreadable fs p = true ->
  raises args fs = false ->
  exists line,
    main args fs =
      Some (mkOutcome 1 [] (if silent args then [] else line ++ [10]) []) /\
    starts_with (u "Error: ") line = true /\
    (forall l,
       list_ args = Some l -> truthy l = true -> readable fs l = false ->
       line =
         if isfile fs l
         then u "Error: Could not read list file '" ++ l ++ u "'."
         else u "Error: List file '" ++ l ++
              u "' does not exist or is not accessible.") /\
    (list_readable args fs = true ->
     forall pre t post,
       prompt args = pre ++ t :: post ->
       Forall (fun q => readable fs q = true) pre -> readable fs t = false ->
       line =
         if isfile fs t
         then u "Error: Could not read prompt template file '" ++ t ++ u "'."
         else u "Error: Prompt template file '" ++ t ++
              u "' does not exist or is not accessible.") /\
    (list_readable args fs = true ->
     Forall (fun q => readable fs q = true) (prompt args) ->
     exists pre q post,
       named_files args fs = pre ++ q :: post /\
       Forall (fun r => readable fs r = true) pre /\
       unreadable fs q = true /\
       line =
         if isfile fs q
         then u "Error: Could not read file '" ++ q ++ u "'."
         else u "Error: File '" ++ q ++ u "' does not exist or is not accessible.").
Proof.
  intros Hin Hbad Hraise. rewrite main_outcome.
  destruct (resolve_cases args fs)
    as [(l0 & Hl0 & Ht0 & Hr0 & Hdec & ->)
       |[(Hlist & pre0 & t0 & post0 & Ets & Hpre0 & Hr0 & Hdec & ->)
        |[(Hlist & Hts & pre0 & q0 & post0 & Efs & Hpre0 & Hr0 & Hdec & ->)
         |(_ & _ & Hfs & _ & _)]]];
    try (rewrite Hraise in Hdec; rewrite <- Hdec).
  - exists (list_error fs l0). rewrite eprint_cases.
    split; [done|]. split; [apply list_error_line|].
    assert (Hno : list_readable args fs = false).
    { unfold list_readable. by rewrite Hl0, Ht0, Hr0. }
    split; [|split; intros; congruence].
    intros l Hl _ _. assert (l = l0) as -> by congruence.
    unfold list_error. by destruct (isfile fs l0).
  - exists (template_error fs t0). rewrite eprint_cases.
    split; [done|]. split; [apply template_error_line|].
    split; [|split].
    + intros l Hl Ht Hr. unfold list_readable in Hlist.
      rewrite Hl, Ht, Hr in Hlist. done.
    + intros _ pre t post E Hpre Hr. rewrite Ets in E.
      destruct (Forall_first_unique fs _ _ _ _ _ _ E Hpre0 Hr0 Hpre Hr) as [_ <-].
      unfold template_error. by destruct (isfile fs t0).
    + intros _ Hall. rewrite Ets in Hall.
      apply Forall_app in Hall as [_ Hall]. apply Forall_inv in Hall. congruence.
  - exists (file_error fs q0). rewrite eprint_cases.
    split; [done|]. split; [apply file_error_line|].
    split; [|split].
    + intros l Hl Ht Hr. unfold list_readable in Hlist.
      rewrite Hl, Ht, Hr in Hlist. done.
    + intros _ pre t post E Hpre Hr. rewrite E in Hts.
      apply Forall_app in Hts as [_ Hts]. apply Forall_inv in Hts. congruence.
    + intros _ _. exists pre0, q0, post0.
      split; [done|]. split; [done|].
      destruct (readable_false _ _ Hr0) as [Hq|Hq]; [|congruence].
      split; [done|]. unfold file_error. by destruct (isfile fs q0).
  - rewrite Forall_forall in Hfs. specialize (Hfs p Hin).
    apply unreadable_not_readable in Hbad. congruence.
Qed.

Lemma unreadable_file_stops_run_witness :
  main args_missing disk_abcd =
  Some (mkOutcome 1 []
          (u "Error: File 'missing.txt' does not exist or is not accessible." ++ [10])
          []).
Proof.
  destruct (unreadable_file_stops_run args_missing disk_abcd (u "missing.txt"))
    as (line & Hmain & _ & _ & _ & Hfile).
  - vm_compute. left. reflexivity.
  - vm_compute. reflexivity.
  - vm_compute. reflexivity.
  - destruct Hfile as (pre & q & post & E & Hpre & Hq & Hline);
      [reflexivity|constructor|].
    destruct pre as [|a pre]; cbn in E.
    + injection E as <- <-. rewrite Hmain, Hline. vm_compute. reflexivity.
    + injection E as _ E. by destruct pre.
Defined.

(** C5 as stated fails: with [-p nope.txt -f missing.txt] and neither file
    present, the one diagnostic names the template file and says nothing
    of the missing file path. *)
Lemma template_failure_hides_file :
  In (u "missing.txt") (named_files args_two_missing disk_abcd) /\
  unreadable disk_abcd (u "missing.txt") = true /\
  main args_two_missing disk_abcd =
    Some (mkOutcome 1 []
            (u "Error: Prompt template file 'nope.txt' does not exist or is not accessible."
             ++ [10]) []) /\
  occurs_in (u "missing.txt")
    (u "Error: Prompt template file 'nope.txt' does not exist or is not accessible."
     ++ [10]) = false.
Proof.
  split; [vm_compute; by left|].
  split; [vm_compute; reflexivity|].
  split; vm_compute; reflexivity.
Qed.

(** C9, as the program has it. A run that renders its text and has no
    output path, or an empty one, sends the text and one newline to
    standard output; with a non-empty output path that can be written, the
    file receives the text and nothing more, and standard output receives
    nothing. In both cases the success line counts the tokens of the text
    itself. *)
Theorem delivery args fs final :
  final_str args fs = Some final ->
  (truthy_opt (output args) = false ->
   main args fs =
     Some (mkOutcome 0 (final ++ [10]) (eprint args (success_line final)) [])) /\
  (forall out,
     output args = Some out -> truthy out = true -> can_write fs out = true ->
     main args fs =
       Some (mkOutcome 0 [] (eprint args (success_line final)) [(out, final)])) /\
  success_line final =
    u "Success: Prompt generated with " ++
    str_of_int (N.of_nat (length (split final))) ++ u " tokens.".
Proof.
  unfold final_str. rewrite main_outcome.
  destruct (resolve args fs) as [[ts fds]|code err|]; [|done..].
  rewrite render_document. intros [= <-]. unfold deliver.
  split; [|split; [|done]].
  - destruct (output args) as [out|]; [|done]. cbn [truthy_opt]. by intros ->.
  - intros out -> -> ->. done.
Qed.

Lemma delivery_witness :
  exists final,
    final_str args_output disk_abcd = Some final /\
    main args_output disk_abcd =
      Some (mkOutcome 0 [] (eprint args_output (success_line final))
              [(u "out.xml", final)]).
Proof.
  assert (Hfinal : final_str args_output disk_abcd =
                   Some (document_text [default_template] [(u "A", u "alpha")]))
    by (vm_compute; reflexivity).
  eexists. split; [exact Hfinal|].
  exact (proj1 (proj2 (delivery _ _ _ Hfinal)) (u "out.xml") eq_refl eq_refl eq_refl).
Defined.

(** C9 as stated fails: [-o] with the empty path is an invocation with
    [-o] that succeeds, yet no file receives the text; it goes to standard
    output with the newline. *)
Lemma empty_output_path_prints :
  output args_empty_output = Some [] /\
  exists final,
    final_str args_empty_output disk_abcd = Some final /\
    main args_empty_output disk_abcd =
      Some (mkOutcome 0 (final ++ [10])
              (eprint args_empty_output (success_line final)) []).
Proof.
  split; [reflexivity|].
  exists (document_text [default_template] [(u "A", u "alpha")]).
  split; vm_compute; reflexivity.
Qed.

(** C4, as the program has it. When every template name and file path is
    made of legal XML characters and every template and file text is made
    of legal XML characters other than the carriage return, reading the
    rendered document back yields exactly the names, paths and texts that
    went in, whatever markup characters they hold. *)
Theorem xml_round_trip args fs templates files_data :
  resolve args fs = Continue (templates, files_data) ->
  Forall (fun t => legal_entry (basename t.1, t.2)) templates ->
  Forall legal_entry files_data ->
  exists final,
    final_str args fs = Some final /\
    read_document final =
      Some (map (fun t => (basename t.1, t.2)) templates, files_data).
Proof.
  intros Hres Hts Hfds. exists (document_text templates files_data).
  unfold final_str. rewrite Hres.
  split; [apply render_document|].
  by apply document_roundtrip.
Qed.

Lemma xml_round_trip_witness :
  exists final,
    final_str (mkArgs [] [u "A"] None None false [u "if a < b && c > d"]) disk_abcd =
      Some final /\
    read_document final =
      Some ([(u "inline_prompt_1", u "if a < b && c > d")], [(u "A", u "alpha")]).
Proof.
  apply (xml_round_trip
           (mkArgs [] [u "A"] None None false [u "if a < b && c > d"]) disk_abcd
           [(u "inline_prompt_1", u "if a < b && c > d")] [(u "A", u "alpha")]).
  - vm_compute. reflexivity.
  - constructor; [|constructor].
    split; [apply legal_value_test|apply legal_text_test]; vm_compute; reflexivity.
  - apply legal_entries_test. vm_compute. reflexivity.
Defined.

(** C4 as stated fails: a positional prompt with a carriage return is
    rendered as it is and read back with a line feed in its place, and a
    file that holds a form feed gives a document that cannot be read. *)
Lemma control_characters_not_recovered :
  (exists final,
     resolve args_carriage_return disk_abcd =
       Continue ([(u "inline_prompt_1", u "a" ++ [13] ++ u "b")], []) /\
     final_str args_carriage_return disk_abcd = Some final /\
     read_document final =
       Some ([(u "inline_prompt_1", u "a" ++ [10] ++ u "b")], [])) /\
  (exists final,
     resolve args_form_feed disk_form_feed =
       Continue ([default_template], [(u "page.txt", u "a" ++ [12] ++ u "b")]) /\
     final_str args_form_feed disk_form_feed = Some final /\
     read_document final = None).
Proof.
  split.
  - exists (document_text [(u "inline_prompt_1", u "a" ++ [13] ++ u "b")] []).
    repeat split; vm_compute; reflexivity.
  - exists (document_text [default_template] [(u "page.txt", u "a" ++ [12] ++ u "b")]).
    repeat split; vm_compute; reflexivity.
Qed.

(** * Further properties *)

Module TextFacts.
Import Py Spec Aux SplitFacts.

(** *** [split] *)

Lemma split_from_trailing_space cur s c :
  isspace c = true -> split_from cur (s ++ [c]) = split_from cur s.
Proof.
  intros Hc. revert cur. induction s as [|x s IH]; intros cur.
  - cbn [app split_from]. rewrite Hc. by destruct cur.
  - cbn [app split_from]. destruct (isspace x); [|apply IH].
    destruct cur; by rewrite IH.
Qed.

Lemma runs_starts_with_word c s :
  isspace c = false -> (1 <= runs true (c :: s))%nat.
Proof. intros Hc. cbn [runs]. rewrite Hc. cbn [negb andb]. lia. Qed.

(** *** [strip] *)

Lemma lstrip_suffix s : exists w, s = w ++ lstrip s /\ Forall (fun c => isspace c = true) w.
Proof.
  induction s as [|c s (w & Hw & Hsp)]; [by exists []|].
  cbn [lstrip]. destruct (isspace c) eqn:Hc.
  - exists (c :: w). split; [by rewrite Hw at 1|by constructor].
  - by exists [].
Qed.

Lemma lstrip_head s c r : lstrip s = c :: r -> isspace c = false.
Proof.
  induction s as [|x s IH]; [done|]. cbn [lstrip].
  destruct (isspace x) eqn:Hx; [done|]. by intros [= <- _].
Qed.

Lemma lstrip_blank s : Forall (fun c => isspace c = true) s -> lstrip s = [].
Proof. induction 1 as [|c s Hc _ IH]; [done|]. cbn [lstrip]. by rewrite Hc. Qed.

Lemma lstrip_fixed c s : isspace c = false -> lstrip (c :: s) = c :: s.
Proof. intros Hc. cbn [lstrip]. by rewrite Hc. Qed.

Lemma rstrip_prefix s : exists w, s = rstrip s ++ w /\ Forall (fun c => isspace c = true) w.
Proof.
  unfold rstrip. destruct (lstrip_suffix (rev s)) as (w & Hw & Hsp).
  exists (rev w). split.
  - rewrite <- rev_app_distr, <- Hw. by rewrite rev_involutive.
  - by apply Forall_rev.
Qed.

Lemma rstrip_last s c r : rstrip s = r ++ [c] -> isspace c = false.
Proof.
  unfold rstrip. intros H. apply (f_equal (@rev N)) in H.
  rewrite rev_involutive, rev_app_distr in H. by apply lstrip_head in H.
Qed.

Lemma strip_Forall (P : N -> Prop) s : Forall P s -> Forall P (strip s).
Proof.
  intros H. unfold strip.
  destruct (lstrip_suffix s) as (w & Hw & _).
  destruct (rstrip_prefix (lstrip s)) as (w' & Hw' & _).
  rewrite Hw, Hw' in H. apply Forall_app in H as [_ H]. by apply Forall_app in H as [H _].
Qed.

Lemma strip_blank s : Forall (fun c => isspace c = true) s -> strip s = [].
Proof. intros H. unfold strip. by rewrite (lstrip_blank _ H). Qed.

Lemma strip_first s c r : strip s = c :: r -> isspace c = false.
Proof.
  unfold strip. intros H.
  destruct (rstrip_prefix (lstrip s)) as (w & Hw & _).
  rewrite H in Hw. cbn [app] in Hw. by apply lstrip_head in Hw.
Qed.

Lemma strip_last s c r : strip s = r ++ [c] -> isspace c = false.
Proof. unfold strip. apply rstrip_last. Qed.

(** *** [splitlines] *)

Lemma splitlines_from_bounded (P : N -> Prop) n cur s :
  (length s <= n)%nat ->
  Forall P cur -> Forall P s -> Forall (Forall P) (splitlines_from cur s).
Proof.
  revert cur s. induction n as [|n IH]; intros cur s Hn Hcur Hs.
  - destruct s; [|cbn [length] in Hn; lia].
    cbn [splitlines_from]. destruct cur; [done|].
    constructor; [by apply Forall_rev|done].
  - destruct s as [|c s].
    { cbn [splitlines_from]. destruct cur; [done|].
      constructor; [by apply Forall_rev|done]. }
    cbn [length] in Hn. pose proof (Forall_inv Hs) as Hc. apply Forall_inv_tail in Hs.
    cbn [splitlines_from]. destruct (is_linebreak c).
    + constructor; [by apply Forall_rev|].
      destruct s as [|c' s']; [apply IH; [cbn [length]; lia|done..]|].
      destruct ((c =? 13) && (c' =? 10)).
      * apply Forall_inv_tail in Hs.
        apply IH; [cbn [length] in Hn; lia|done..].
      * apply IH; [lia|done..].
    + apply IH; [lia|by constructor|done].
Qed.

Lemma splitlines_Forall (P : N -> Prop) s :
  Forall P s -> Forall (Forall P) (splitlines s).
Proof. intros H. by apply (splitlines_from_bounded P (length s)). Qed.

Lemma splitlines_from_unbroken n cur s :
  (length s <= n)%nat ->
  Forall (fun c => is_linebreak c = false) cur ->
  Forall (Forall (fun c => is_linebreak c = false)) (splitlines_from cur s).
Proof.
  revert cur s. induction n as [|n IH]; intros cur s Hn Hcur.
  - destruct s; [|cbn [length] in Hn; lia].
    cbn [splitlines_from]. destruct cur; [done|].
    constructor; [by apply Forall_rev|done].
  - destruct s as [|c s].
    { cbn [splitlines_from]. destruct cur; [done|].
      constructor; [by apply Forall_rev|done]. }
    cbn [length] in Hn.
    cbn [splitlines_from]. destruct (is_linebreak c) eqn:Hc.
    + constructor; [by apply Forall_rev|].
      destruct s as [|c' s']; [apply IH; [cbn [length]; lia|done]|].
      destruct ((c =? 13) && (c' =? 10)).
      * apply IH; [cbn [length] in Hn; lia|done].
      * apply IH; [lia|done].
    + apply IH; [lia|by constructor].
Qed.

Lemma splitlines_unbroken s :
  Forall (Forall (fun c => is_linebreak c = false)) (splitlines s).
Proof. by apply (splitlines_from_unbroken (length s)). Qed.

End TextFacts.

Module NameFacts.
Import Py Rp Spec Aux.

(** *** Decimal numbers *)

Lemma digits_inj d1 d2 : digits d1 = digits d2 -> d1 = d2.
Proof.
  revert d2. induction d1 as [|d1 IH|d1 IH|d1 IH|d1 IH|d1 IH|d1 IH|d1 IH|d1 IH|d1 IH|d1 IH];
    intros [|d2|d2|d2|d2|d2|d2|d2|d2|d2|d2]; cbn [digits]; intros [=];
    try done; f_equal; by apply IH.
Qed.

Lemma str_of_int_inj n m : str_of_int n = str_of_int m -> n = m.
Proof.
  unfold str_of_int. intros H%digits_inj.
  rewrite <- (DecimalN.Unsigned.of_to n), <- (DecimalN.Unsigned.of_to m).
  by rewrite H.
Qed.

Lemma digits_are_digits d : Forall (fun c => 48 <= c <= 57) (digits d).
Proof. induction d; cbn [digits]; constructor; (lia || done). Qed.

(** *** [basename] *)

Lemma contains_false c s : contains c s = false <-> Forall (fun x => x <> c) s.
Proof.
  unfold contains. induction s as [|x s IH]; cbn [existsb].
  - split; [constructor|done].
  - rewrite orb_false_iff, IH, N.eqb_neq. split.
    + intros [? ?]. by constructor.
    + intros H. split; [by apply Forall_inv in H|by apply Forall_inv_tail in H].
Qed.

Lemma basename_no_slash p : contains 47 (basename p) = false.
Proof.
  induction p as [|c p IH]; [done|]. cbn [basename].
  destruct (contains 47 p) eqn:Hp; [done|].
  destruct (N.eqb_spec c 47) as [->|Hc]; [done|].
  unfold contains in *. cbn [existsb]. rewrite Hp.
  by rewrite (proj2 (N.eqb_neq 47 c)).
Qed.

Lemma basename_plain p : contains 47 p = false -> basename p = p.
Proof.
  destruct p as [|c p]; [done|]. unfold contains. cbn [existsb basename].
  intros [Hc Hp]%orb_false_iff. unfold contains. rewrite Hp.
  by rewrite N.eqb_sym, Hc.
Qed.

Lemma basename_after_slash dir name :
  contains 47 name = false -> basename (dir ++ 47 :: name) = name.
Proof.
  intros Hn. induction dir as [|c dir IH]; cbn [app basename].
  - by rewrite Hn.
  - assert (contains 47 (dir ++ 47 :: name) = true) as ->; [|done].
    unfold contains. rewrite existsb_app. cbn [existsb].
    by rewrite N.eqb_refl, orb_true_r.
Qed.

End NameFacts.

Module EscapeMore.
Import Py ET Rp Spec Aux MoreDefs EscapeFacts RenderFacts NameFacts.

Lemma Forall_flat_map {A B} (Q : B -> Prop) (f : A -> list B) (l : list A) :
  (forall x, Forall Q (f x)) -> Forall Q (flat_map f l).
Proof.
  intros H. induction l as [|x l IH]; [done|].
  cbn [flat_map]. apply Forall_app. by split.
Qed.

Lemma xmlcharrefreplace_keeps_out c x :
  x <> c -> c <> 38 -> c <> 35 -> c <> 59 -> ~ (48 <= c <= 57) ->
  Forall (fun y => y <> c) (xmlcharrefreplace x).
Proof.
  intros Hx H38 H35 H59 Hd. unfold xmlcharrefreplace.
  destruct (is_surrogate x); [|by constructor].
  apply Forall_app. split; [by repeat constructor|].
  apply Forall_app. split; [|by repeat constructor].
  unfold str_of_int. eapply Forall_impl; [|apply digits_are_digits].
  intros y Hy ->. by apply Hd.
Qed.

Lemma encoded_keeps_out c s :
  Forall (fun x => x <> c) s -> c <> 38 -> c <> 35 -> c <> 59 -> ~ (48 <= c <= 57) ->
  Forall (fun y => y <> c) (encoded s).
Proof.
  intros Hs H38 H35 H59 Hd. unfold encoded.
  induction Hs as [|x s Hx _ IH]; [done|].
  cbn [flat_map]. apply Forall_app. split; [|done].
  by apply xmlcharrefreplace_keeps_out.
Qed.

Ltac char_case x k := destruct (N.eqb_spec x k) as [->|?].

Ltac each_char Hc := repeat (destruct Hc as [->|Hc]); subst.

Lemma cdata_char_keeps_out c x :
  c = 60 \/ c = 62 -> Forall (fun y => y <> c) (cdata_char x).
Proof.
  intros Hc. unfold cdata_char.
  char_case x 38; [each_char Hc; by repeat constructor|].
  char_case x 60; [each_char Hc; by repeat constructor|].
  char_case x 62; [each_char Hc; by repeat constructor|].
  constructor; [|done]. by each_char Hc.
Qed.

Lemma attrib_char_keeps_out c x :
  c = 60 \/ c = 62 \/ c = 34 \/ c = 13 \/ c = 10 \/ c = 9 ->
  Forall (fun y => y <> c) (attrib_char x).
Proof.
  intros Hc. unfold attrib_char.
  char_case x 38; [each_char Hc; by repeat constructor|].
  char_case x 60; [each_char Hc; by repeat constructor|].
  char_case x 62; [each_char Hc; by repeat constructor|].
  char_case x 34; [each_char Hc; by repeat constructor|].
  char_case x 13; [each_char Hc; by repeat constructor|].
  char_case x 10; [each_char Hc; by repeat constructor|].
  char_case x 9; [each_char Hc; by repeat constructor|].
  constructor; [|done]. by each_char Hc.
Qed.

Lemma escaped_text_keeps_out c text :
  c = 60 \/ c = 62 -> Forall (fun y => y <> c) (encoded (_escape_cdata text)).
Proof.
  intros Hc. rewrite _escape_cdata_chars.
  apply encoded_keeps_out; try (each_char Hc; lia).
  apply Forall_flat_map. intros x. by apply cdata_char_keeps_out.
Qed.

Lemma escaped_value_keeps_out c value :
  c = 60 \/ c = 62 \/ c = 34 \/ c = 13 \/ c = 10 \/ c = 9 ->
  Forall (fun y => y <> c) (encoded (_escape_attrib value)).
Proof.
  intros Hc. rewrite _escape_attrib_chars.
  apply encoded_keeps_out; try (each_char Hc; lia).
  apply Forall_flat_map. intros x. by apply attrib_char_keeps_out.
Qed.

Ltac count_literals :=
  repeat match goal with
  | |- context [occurrences ?c (u ?s)] =>
      let v := eval vm_compute in (occurrences c (u s)) in
      change (occurrences c (u s)) with v
  end.

Lemma occurrences_app c s1 s2 :
  occurrences c (s1 ++ s2) = (occurrences c s1 + occurrences c s2)%nat.
Proof. apply count_occ_app. Qed.

Lemma occurrences_none c s : Forall (fun y => y <> c) s -> occurrences c s = 0%nat.
Proof.
  intros H. apply count_occ_not_In. rewrite Forall_forall in H.
  intros Hin. by apply (H c Hin).
Qed.

Lemma leaf_text_tags c tg key value txt :
  c = 60 \/ c = 62 ->
  occurrences c (u tg) = 0%nat -> occurrences c (u key) = 0%nat ->
  occurrences c (leaf_text (u tg) (u key) value txt) = leaf_tags (value, txt).
Proof.
  intros Hc Htg Hkey. unfold leaf_text, leaf_tags. cbn [snd].
  rewrite !occurrences_app, Htg, Hkey.
  rewrite (occurrences_none c (encoded (_escape_attrib value)))
    by (apply escaped_value_keeps_out; tauto).
  destruct (truthy txt).
  - rewrite !occurrences_app, Htg.
    rewrite (occurrences_none c (encoded (_escape_cdata txt)))
      by (by apply escaped_text_keeps_out).
    by destruct Hc as [->| ->].
  - by destruct Hc as [->| ->].
Qed.

Lemma group_text_tags c gt tg key (xs : list (str * str)) :
  c = 60 \/ c = 62 ->
  occurrences c (u gt) = 0%nat ->
  occurrences c (u tg) = 0%nat -> occurrences c (u key) = 0%nat ->
  occurrences c
    (group_text (u gt) (map (fun x => leaf_text (u tg) (u key) x.1 x.2) xs)) =
  group_tags xs.
Proof.
  intros Hc Hgt Htg Hkey.
  assert (Hsum : occurrences c
            (concat (map (fun x => leaf_text (u tg) (u key) x.1 x.2) xs)) =
          list_sum (map leaf_tags xs)).
  { induction xs as [|[value txt] xs IH]; [done|].
    cbn [map concat list_sum fst snd]. rewrite occurrences_app, IH.
    by rewrite leaf_text_tags. }
  destruct xs as [|x xs].
  - unfold group_text, group_tags. cbn [map].
    rewrite !occurrences_app, Hgt. by destruct Hc as [->| ->].
  - set (ys := x :: xs) in *.
    assert (E : group_text (u gt)
                  (map (fun x => leaf_text (u tg) (u key) x.1 x.2) ys) =
                u "<" ++ u gt ++ u ">" ++
                concat (map (fun x => leaf_text (u tg) (u key) x.1 x.2) ys) ++
                u "</" ++ u gt ++ u ">") by reflexivity.
    rewrite E. unfold group_tags. fold ys.
    rewrite !occurrences_app, Hgt, Hsum.
    change (match ys with [] => 1 | _ :: _ => 2 + list_sum (map leaf_tags ys) end)%nat
      with (2 + list_sum (map leaf_tags ys))%nat.
    clearbody ys. destruct Hc as [->| ->]; count_literals; lia.
Qed.

Lemma document_text_tags c ts fds :
  c = 60 \/ c = 62 ->
  occurrences c (document_text ts fds) =
  document_tags (map (fun t => (basename t.1, t.2)) ts) fds.
Proof.
  intros Hc. unfold document_text, document_tags, template_text, file_text.
  rewrite !occurrences_app.
  rewrite <- (map_map (fun t => (basename t.1, t.2))
                (fun x => leaf_text (u "template") (u "name") x.1 x.2)).
  rewrite (group_text_tags c "templates" "template" "name"),
          (group_text_tags c "files" "file" "path");
    try (destruct Hc as [->| ->]; reflexivity); try done.
  destruct Hc as [->| ->]; count_literals; lia.
Qed.

End EscapeMore.

Module PlainFacts.
Import Py ET Rp Spec Aux MoreDefs EscapeFacts RenderFacts NameFacts EscapeMore.

Lemma group_tags_names (ts : list (str * str)) :
  group_tags (map (fun t => (basename t.1, t.2)) ts) = group_tags ts.
Proof.
  unfold group_tags. destruct ts as [|t ts]; [done|].
  cbn [map]. by rewrite map_map.
Qed.

Lemma plain_in_text_spec c :
  plain_in_text c = true ->
  c <> 38 /\ c <> 60 /\ c <> 62 /\ is_surrogate c = false.
Proof.
  unfold plain_in_text. rewrite negb_true_iff, !orb_false_iff, !N.eqb_neq. tauto.
Qed.

Lemma plain_in_value_spec c :
  plain_in_value c = true ->
  plain_in_text c = true /\ c <> 34 /\ c <> 13 /\ c <> 10 /\ c <> 9.
Proof.
  unfold plain_in_value.
  rewrite andb_true_iff, negb_true_iff, !orb_false_iff, !N.eqb_neq. tauto.
Qed.

Ltac drop_tests :=
  repeat match goal with
  | H : ?c <> ?k |- context [?c =? ?k] => rewrite (proj2 (N.eqb_neq c k) H)
  end.

Lemma plain_text_verbatim text :
  forallb plain_in_text text = true -> encoded (_escape_cdata text) = text.
Proof.
  rewrite forallb_forall, <- Forall_forall, _escape_cdata_chars.
  induction 1 as [|c text (H38 & H60 & H62 & Hs)%plain_in_text_spec _ IH];
    [done|].
  cbn [flat_map]. rewrite encoded_app, IH. unfold cdata_char. drop_tests.
  unfold encoded. cbn [flat_map]. unfold xmlcharrefreplace. by rewrite Hs.
Qed.

Lemma plain_value_verbatim value :
  forallb plain_in_value value = true -> encoded (_escape_attrib value) = value.
Proof.
  rewrite forallb_forall, <- Forall_forall, _escape_attrib_chars.
  induction 1 as [|c value (Ht & H34 & H13 & H10 & H9)%plain_in_value_spec _ IH];
    [done|].
  apply plain_in_text_spec in Ht as (H38 & H60 & H62 & Hs).
  cbn [flat_map]. rewrite encoded_app, IH. unfold attrib_char. drop_tests.
  unfold encoded. cbn [flat_map]. unfold xmlcharrefreplace. by rewrite Hs.
Qed.

Lemma digits_not_surrogate d : Forall (fun c => is_surrogate c = false) (digits d).
Proof.
  eapply Forall_impl; [|apply digits_are_digits].
  intros c Hc. cbv beta in Hc. unfold is_surrogate. apply andb_false_iff. left.
  apply N.leb_gt. lia.
Qed.

Lemma encoded_no_surrogate s : Forall (fun c => is_surrogate c = false) (encoded s).
Proof.
  unfold encoded. apply Forall_flat_map. intros x.
  unfold xmlcharrefreplace. destruct (is_surrogate x) eqn:Hx.
  - apply Forall_app. split; [by repeat constructor|].
    apply Forall_app. split; [apply digits_not_surrogate|by repeat constructor].
  - by repeat constructor.
Qed.

End PlainFacts.

Module RunFacts.
Import Py ET Rp Spec Aux MoreDefs RunDefs.
Import ResolveFacts MainFacts FlowFacts FailureFacts CaseFacts RenderFacts.

(** Only [read_list] looks at [-l]. *)
Lemma read_templates_without_list args fs paths acc :
  read_templates (without_list args) fs paths acc = read_templates args fs paths acc.
Proof.
  revert acc. induction paths as [|p ps IH]; intros acc; [done|].
  cbn [read_templates]. destruct (negb (isfile fs p)); [done|].
  destruct (read_file_content fs p); [apply IH|done..].
Qed.

Lemma read_files_without_list args fs paths acc :
  read_files (without_list args) fs paths acc = read_files args fs paths acc.
Proof.
  revert acc. induction paths as [|p ps IH]; intros acc; [done|].
  cbn [read_files]. destruct (negb (isfile fs p)); [done|].
  destruct (read_file_content fs p); [apply IH|done..].
Qed.

Lemma main_without_list args fs :
  read_list args fs (file args) = Continue (file args) ->
  main args fs = main (without_list args) fs.
Proof.
  intros Hl. unfold main. rewrite !resolve_phases, Hl.
  rewrite read_templates_without_list.
  change (read_list (without_list args) fs (file (without_list args)))
    with (@Continue (list str) (file args)).
  cbn [and_then].
  change (prompt (without_list args)) with (prompt args).
  change (additional_prompts (without_list args)) with (additional_prompts args).
  destruct (read_templates args fs (prompt args) []) as [ts| |]; [|done..].
  cbn [and_then]. rewrite read_files_without_list.
  destruct (read_files args fs (file args) []) as [fds| |]; [|done..].
  cbn [and_then]. by destruct (render _ fds).
Qed.

End RunFacts.

Import MoreDefs RunDefs.
Import TextFacts NameFacts EscapeMore PlainFacts RunFacts.

(** ** Further properties of the program *)

(** X1. When the inputs resolve and [-o] names a non-empty path that
    cannot be written, the run ends with exit code 1: nothing goes to
    standard output, no file is written, and the diagnostic stream receives
    the write error naming the path (nothing when silent), not the success
    line. *)
Theorem write_failure args fs templates files_data out :
  resolve args fs = Continue (templates, files_data) ->
  output args = Some out -> truthy out = true -> can_write fs out = false ->
  main args fs =
    Some (mkOutcome 1 []
            (if silent args then []
             else u "Error: Could not write to output file '" ++ out ++ u "'." ++ [10])
            []).
Proof.
  intros Hres Hout Ht Hw. rewrite main_outcome, Hres. unfold deliver, eprint. rewrite Hout, Ht, Hw.
  by rewrite <- !app_assoc.
Qed.

Lemma write_failure_witness :
  main args_output disk_read_only =
  Some (mkOutcome 1 []
          (u "Error: Could not write to output file 'out.xml'." ++ [10]) []).
Proof.
  apply (write_failure args_output disk_read_only
           [default_template] (map (entry disk_read_only) (file args_output))
           (u "out.xml")).
  - vm_compute. reflexivity.
  - reflexivity.
  - reflexivity.
  - reflexivity.
Defined.

(** X2. When [-l] names a non-empty path that is not a file or cannot be
    read, the run ends with exit code 1 and the list-file error naming that
    path, whatever the other arguments are: no template and no file is
    reported, nothing is rendered. *)
Theorem list_file_failure args fs l :
  list_ args = Some l -> truthy l = true -> unreadable fs l = true ->
  main args fs =
    Some (mkOutcome 1 []
            (if silent args then []
             else (if isfile fs l
                   then u "Error: Could not read list file '" ++ l ++ u "'."
                   else u "Error: List file '" ++ l ++
                        u "' does not exist or is not accessible.") ++ [10])
            []).
Proof.
  intros Hl Ht Hbad. rewrite main_outcome, resolve_phases.
  rewrite (read_list_stop _ _ _ _ Hl Ht Hbad). cbn [and_then].
  unfold eprint, list_error. by destruct (isfile fs l).
Qed.

Lemma list_file_failure_witness :
  main (mkArgs [u "nope.txt"] [u "missing.txt"] (Some (u "no-list.txt")) None false [])
       disk_abcd =
  Some (mkOutcome 1 []
          (u "Error: List file 'no-list.txt' does not exist or is not accessible." ++ [10])
          []).
Proof.
  apply (list_file_failure
           (mkArgs [u "nope.txt"] [u "missing.txt"] (Some (u "no-list.txt")) None false [])
           disk_abcd (u "no-list.txt")).
  - reflexivity.
  - reflexivity.
  - vm_compute. reflexivity.
Defined.

(** X3. When the list file, if any, and the template files before it are
    read, the first template file that is not a file or cannot be read
    ends the run with exit code 1 and the template error naming it,
    whether or not the files can be read. *)
Theorem template_file_failure args fs pre p post :
  list_readable args fs = true ->
  prompt args = pre ++ p :: post ->
  Forall (fun q => readable fs q = true) pre ->
  unreadable fs p = true ->
  main args fs =
    Some (mkOutcome 1 []
            (if silent args then []
             else (if isfile fs p
                   then u "Error: Could not read prompt template file '" ++ p ++ u "'."
                   else u "Error: Prompt template file '" ++ p ++
                        u "' does not exist or is not accessible.") ++ [10])
            []).
Proof.
  intros Hl Hp Hpre Hbad. rewrite main_outcome, resolve_phases.
  rewrite (list_readable_spec _ _ Hl), Hp. cbn [and_then].
  rewrite (read_templates_stop _ _ _ _ _ _ Hpre Hbad). cbn [and_then].
  unfold eprint, template_error. by destruct (isfile fs p).
Qed.

Lemma template_file_failure_witness :
  main (mkArgs [u "A"; u "nope.txt"; u "B"] [u "missing.txt"] None None false [])
       disk_abcd =
  Some (mkOutcome 1 []
          (u "Error: Prompt template file 'nope.txt' does not exist or is not accessible."
           ++ [10]) []).
Proof.
  apply (template_file_failure
           (mkArgs [u "A"; u "nope.txt"; u "B"] [u "missing.txt"] None None false [])
           disk_abcd [u "A"] (u "nope.txt") [u "B"]).
  - reflexivity.
  - reflexivity.
  - constructor; [vm_compute; reflexivity|constructor].
  - vm_compute. reflexivity.
Defined.




(** X6. For a successful run that prints to standard output and is not
    silent, the number in the success line is the number of
    whitespace-separated tokens of what standard output received: the
    newline that [print] adds does not change the count. *)
Theorem token_count_of_stdout args fs o :
  main args fs = Some o ->
  exit_code o = 0%Z ->
  silent args = false ->
  truthy_opt (output args) = false ->
  stderr o =
    u "Success: Prompt generated with " ++
    str_of_int (N.of_nat (length (split (stdout o)))) ++ u " tokens." ++ [10].
Proof.
  rewrite main_outcome.
  destruct (resolve args fs) as [[ts fds]|code err|] eqn:Hres; [| |done].
  2:{ intros [= <-]. cbn [exit_code]. intros ->. by apply resolve_code in Hres. }
  intros [= <-] _ Hs Hout. unfold deliver.
  assert (Hpr : forall final,
            stderr (mkOutcome 0 (final ++ [10]) (eprint args (success_line final)) []) =
            u "Success: Prompt generated with " ++
            str_of_int (N.of_nat (length (split (final ++ [10])))) ++
            u " tokens." ++ [10]).
  { intros final. cbn [stderr]. rewrite (eprint_loud _ _ Hs).
    unfold success_line, token_count, split.
    rewrite split_from_trailing_space by done. by rewrite <- !app_assoc. }
  destruct (output args) as [out|]; [|apply Hpr].
  cbn [truthy_opt] in Hout. rewrite Hout. apply Hpr.
Qed.

Lemma token_count_of_stdout_witness :
  exists o,
    main args_abcd disk_abcd = Some o /\
    stderr o =
      u "Success: Prompt generated with " ++
      str_of_int (N.of_nat (length (split (stdout o)))) ++ u " tokens." ++ [10].
Proof.
  assert (Ho : main args_abcd disk_abcd =
               Some (deliver args_abcd disk_abcd
                       (document_text [default_template]
                          [(u "A", u "alpha"); (u "B", u "beta");
                           (u "C", u "gamma"); (u "D", u "delta")])))
    by (vm_compute; reflexivity).
  eexists. split; [exact Ho|].
  apply (token_count_of_stdout args_abcd disk_abcd _ Ho); reflexivity.
Defined.

(** X7. The rendered text has at least one token and at most as many
    tokens as characters, whatever the templates and files are: the
    success line never reports zero. *)
Theorem token_count_bounds templates files_data final :
  render templates files_data = Some final ->
  (1 <= token_count final)%N /\ (token_count final <= N.of_nat (length final))%N.
Proof.
  rewrite render_document. intros [= <-].
  unfold token_count. rewrite split_count_runs. split.
  - unfold split, count_runs.
    rewrite (count_after true).
    change (document_text templates files_data) with
      (60 :: u "prompt>" ++
       group_text (u "templates") (map template_text templates) ++
       group_text (u "files") (map file_text files_data) ++ u "</prompt>").
    pose proof (runs_starts_with_word 60
                  (u "prompt>" ++
                   group_text (u "templates") (map template_text templates) ++
                   group_text (u "files") (map file_text files_data) ++ u "</prompt>")
                  eq_refl). lia.
  - unfold count_runs.
    pose proof (List.filter_length_le (starts_run (document_text templates files_data))
                  (seq 0 (length (document_text templates files_data)))) as H.
    rewrite length_seq in H. lia.
Qed.

Lemma token_count_bounds_witness :
  exists final,
    render [(u "t", u "  ")] [] = Some final /\
    (1 <= token_count final)%N /\ (token_count final <= N.of_nat (length final))%N.
Proof.
  assert (H : render [(u "t", u "  ")] [] =
              Some (document_text [(u "t", u "  ")] []))
    by (vm_compute; reflexivity).
  eexists. split; [exact H|]. exact (token_count_bounds _ _ _ H).
Defined.

(** X8. Contents add no markup: in the rendered text the characters
    less-than and greater-than occur once per tag each, a number fixed by
    how many templates and files there are and which of them have empty
    text, whatever the names, paths and texts contain. *)
Theorem contents_add_no_markup templates files_data :
  exists final,
    render templates files_data = Some final /\
    occurrences 60 final = document_tags templates files_data /\
    occurrences 62 final = document_tags templates files_data.
Proof.
  exists (document_text templates files_data).
  split; [apply render_document|].
  rewrite !document_text_tags by tauto.
  unfold document_tags. by rewrite group_tags_names.
Qed.

(** X9. A path taken from the list file is never empty, has no whitespace
    at either end and holds no line-break character; the paths given
    before are kept as they are. *)
Theorem listed_paths_are_trimmed args fs file_paths paths p :
  read_list args fs file_paths = Continue paths ->
  In p paths ->
  In p file_paths \/
  (p <> [] /\
   Forall (fun c => is_linebreak c = false) p /\
   (forall c r, p = c :: r -> isspace c = false) /\
   (forall c r, p = r ++ [c] -> isspace c = false)).
Proof.
  unfold read_list.
  destruct (list_ args) as [l|]; [|intros [= <-]; by left].
  destruct (truthy l); [|intros [= <-]; by left].
  destruct (negb (isfile fs l)); [done|].
  destruct (read_file_content fs l) as [c| |]; [|done..].
  intros [= <-]. rewrite collect_lines, in_app_iff.
  intros [Hp|Hp]; [by left|right].
  apply filter_In in Hp as [Hp Hne].
  apply in_map_iff in Hp as (line & <- & Hline).
  pose proof (splitlines_unbroken c) as Hlines.
  rewrite Forall_forall in Hlines. specialize (Hlines line Hline).
  split; [by destruct (strip line)|].
  split; [by apply strip_Forall|].
  split; intros x r Hx; [by eapply strip_first|by eapply strip_last].
Qed.

Lemma listed_paths_are_trimmed_witness :
  read_list args_abcd disk_abcd [u "A"; u "B"] =
    Continue [u "A"; u "B"; u "C"; u "D"] /\
  (In (u "C") [u "A"; u "B"] \/
   (u "C" <> [] /\
    Forall (fun c => is_linebreak c = false) (u "C") /\
    (forall c r, u "C" = c :: r -> isspace c = false) /\
    (forall c r, u "C" = r ++ [c] -> isspace c = false))).
Proof.
  assert (H : read_list args_abcd disk_abcd [u "A"; u "B"] =
              Continue [u "A"; u "B"; u "C"; u "D"]) by (vm_compute; reflexivity).
  split; [exact H|].
  apply (listed_paths_are_trimmed args_abcd disk_abcd _ _ (u "C") H).
  vm_compute. tauto.
Defined.

(** X10. The positional prompts are added behind the templates read so
    far, one template each, under names that are pairwise distinct. *)
Theorem inline_names_distinct (inline_prompts : list str) templates :
  exists added,
    add_inline 0 inline_prompts templates = templates ++ added /\
    length added = length inline_prompts /\
    NoDup (map fst added).
Proof.
  exists (inline_templates inline_prompts).
  split; [apply add_inline_templates|].
  unfold inline_templates. split; [apply length_imap|].
  apply NoDup_alt.
  intros i j name Hi Hj.
  rewrite list_lookup_fmap, list_lookup_imap in Hi, Hj.
  destruct (inline_prompts !! i) as [pi|]; [|done].
  destruct (inline_prompts !! j) as [pj|]; [|done].
  cbn in Hi, Hj. injection Hi as <-. injection Hj as Hj.
  apply str_of_int_inj in Hj. lia.
Qed.

(** X11. A template file is named by the last component of its path: the
    directories before the last slash do not show in the rendered text. *)
Theorem template_named_by_last_component dir name text before after files_data :
  contains 47 name = false ->
  render (before ++ (dir ++ 47 :: name, text) :: after) files_data =
  render (before ++ (name, text) :: after) files_data.
Proof.
  intros Hn. rewrite !render_document. f_equal.
  unfold document_text. rewrite !map_app. cbn [map].
  unfold template_text at 2 5. cbn [fst snd].
  by rewrite (basename_after_slash dir name Hn), (basename_plain name Hn).
Qed.

Lemma template_named_by_last_component_witness :
  render [(u "a.txt", u "first"); (u "notes/drafts/intro.txt", u "hello")] [] =
  render [(u "a.txt", u "first"); (u "intro.txt", u "hello")] [].
Proof.
  exact (template_named_by_last_component
           (u "notes/drafts") (u "intro.txt") (u "hello")
           [(u "a.txt", u "first")] [] [] eq_refl).
Defined.

(** X12. A file whose path has none of the characters ampersand, less
    than, greater than, double quote, carriage return, line feed and tab,
    and whose non-empty text has none of ampersand, less than and greater
    than (and neither has a lone surrogate), is found letter for letter in
    the rendered text: the start tag with the path between double quotes
    as the [path] attribute, the text, the end tag. *)
Theorem plain_file_verbatim templates before after path text :
  forallb plain_in_value path = true ->
  forallb plain_in_text text = true ->
  text <> [] ->
  exists head rest,
    render templates (before ++ (path, text) :: after) =
    Some (head ++
          u "<file path=" ++ [34] ++ path ++ [34] ++ u ">" ++ text ++ u "</file>" ++
          rest).
Proof.
  intros Hp Ht Hne.
  assert (Hleaf : file_text (path, text) =
                  u "<file path=" ++ [34] ++ path ++ [34] ++ u ">" ++ text ++
                  u "</file>").
  { unfold file_text, leaf_text. cbn [fst snd].
    rewrite (plain_value_verbatim _ Hp), (plain_text_verbatim _ Ht).
    destruct text; [done|]. reflexivity. }
  exists (u "<prompt>" ++ group_text (u "templates") (map template_text templates) ++
          u "<files>" ++ concat (map file_text before)),
         (concat (map file_text after) ++ u "</files>" ++ u "</prompt>").
  rewrite render_document. f_equal. unfold document_text.
  rewrite map_app. cbn [map].
  assert (Hgroup : forall kids kid kids',
            group_text (u "files") (kids ++ kid :: kids') =
            u "<files>" ++ concat kids ++ kid ++ concat kids' ++ u "</files>").
  { intros kids kid kids'. unfold group_text.
    destruct (kids ++ kid :: kids') eqn:E; [by destruct kids|].
    rewrite <- E, concat_app. cbn [concat].
    by rewrite <- !app_assoc. }
  rewrite Hgroup, Hleaf. by rewrite <- !app_assoc.
Qed.

Lemma plain_file_verbatim_witness :
  exists head rest,
    render [] [(u "a", u "x < y"); (u "src/rp.py", u "import sys")] =
    Some (head ++
          u "<file path=" ++ [34] ++ u "src/rp.py" ++ [34] ++ u ">" ++
          u "import sys" ++ u "</file>" ++ rest).
Proof.
  apply (plain_file_verbatim [] [(u "a", u "x < y")] []
           (u "src/rp.py") (u "import sys")).
  - vm_compute. reflexivity.
  - vm_compute. reflexivity.
  - discriminate.
Defined.

(** X13. What a run prints or writes holds no lone surrogate, even when
    an argument or a file does: the text can always be encoded as UTF-8. *)
Theorem rendered_text_encodable args fs o :
  main args fs = Some o ->
  Forall (fun c => is_surrogate c = false) (stdout o) /\
  Forall (fun w => Forall (fun c => is_surrogate c = false) w.2) (written o).
Proof.
  rewrite main_outcome.
  destruct (resolve args fs) as [[ts fds]|code err|];
    [|intros [= <-]; split; constructor|done].
  intros [= <-].
  assert (Hdoc : Forall (fun c => is_surrogate c = false) (document_text ts fds)).
  { rewrite <- encoded_raw_document. apply encoded_no_surrogate. }
  assert (Hline : Forall (fun c => is_surrogate c = false) (document_text ts fds ++ [10])).
  { apply Forall_app. split; [done|by repeat constructor]. }
  unfold deliver.
  destruct (output args) as [out|]; [|split; [exact Hline|constructor]].
  destruct (truthy out); [|split; [exact Hline|constructor]].
  destruct (can_write fs out); [|split; constructor].
  split; [constructor|]. constructor; [exact Hdoc|constructor].
Qed.

Lemma rendered_text_encodable_witness :
  exists o,
    main (mkArgs [] [] None None false [[97; 56320; 98]]) disk_abcd = Some o /\
    Forall (fun c => is_surrogate c = false) (stdout o).
Proof.
  assert (Ho : main (mkArgs [] [] None None false [[97; 56320; 98]]) disk_abcd =
               Some (deliver (mkArgs [] [] None None false [[97; 56320; 98]]) disk_abcd
                       (document_text [(u "inline_prompt_1", [97; 56320; 98])] [])))
    by (vm_compute; reflexivity).
  eexists. split; [exact Ho|].
  exact (proj1 (rendered_text_encodable _ _ _ Ho)).
Defined.

(** X14. [-l] with the empty string as path is ignored without a
    diagnostic: the run is that of the same invocation without [-l]. *)
Theorem empty_list_path_ignored args fs :
  list_ args = Some [] -> main args fs = main (without_list args) fs.
Proof.
  intros Hl. apply main_without_list. unfold read_list. by rewrite Hl.
Qed.

Lemma empty_list_path_ignored_witness :
  main (mkArgs [] [u "A"] (Some []) None false []) disk_abcd =
  main (mkArgs [] [u "A"] None None false []) disk_abcd.
Proof.
  exact (empty_list_path_ignored
           (mkArgs [] [u "A"] (Some []) None false []) disk_abcd eq_refl).
Defined.

(** X15. A readable list file that holds nothing but whitespace adds no
    file and no diagnostic: the run is that of the same invocation without
    [-l]. *)
Theorem blank_list_adds_nothing args fs l list_content :
  list_ args = Some l ->
  isfile fs l = true ->
  read_file_content fs l = Decoded list_content ->
  Forall (fun c => isspace c = true) list_content ->
  main args fs = main (without_list args) fs.
Proof.
  intros Hl Hf Hc Hblank. apply main_without_list.
  assert (Hnone : listed_paths list_content = []).
  { unfold listed_paths.
    pose proof (splitlines_Forall _ _ Hblank) as Hlines.
    induction Hlines as [|line lines Hline _ IH]; [done|].
    cbn [map List.filter]. by rewrite (strip_blank _ Hline). }
  rewrite (read_list_ok _ _ _ _ _ Hl Hf Hc), Hnone. by rewrite app_nil_r.
Qed.

Lemma blank_list_adds_nothing_witness :
  main (mkArgs [] [u "A"] (Some (u "list.txt")) None false []) disk_blank_list =
  main (mkArgs [] [u "A"] None None false []) disk_blank_list.
Proof.
  apply (blank_list_adds_nothing
           (mkArgs [] [u "A"] (Some (u "list.txt")) None false []) disk_blank_list
           (u "list.txt") (u "  " ++ [10; 9; 13; 10] ++ u " ")).
  - reflexivity.
  - vm_compute. reflexivity.
  - vm_compute. reflexivity.
  - repeat constructor.
Defined.


